(** * FillerBot (src/bots/filler.ts): a shallow embedding and its properties.

    The bot is modelled the way the TypeScript is written: the mutable
    members of the class and the objects it aliases live in a [World] that is
    threaded through a small state-and-exception monad; the collaborators the
    bot talks to (SDK, RPC connection, order book, wall clock, locks) are the
    fields of an [Env] record and are read as oracles. *)

From Stdlib Require Import ZArith String Ascii List Lia Bool.
From stdpp Require Import gmap strings list pretty.

Open Scope string_scope.
Open Scope list_scope.
Open Scope Z_scope.

(** ** Data *)

(** A public key is identified with its [toString()] rendering. *)
Definition PublicKey : Type := string.

Record Order := mkOrder { orderId : Z }.

Record MarketAccount := mkMarket { marketIndex : Z }.

(** A node of the order book.  [isVammNode] is a method in the source; only its
    result matters here.  [haveFilled] is the mutable flag. *)
Record DLOBNode := mkDLOBNode {
  userAccount : option PublicKey;
  order : Order;
  market : MarketAccount;
  haveFilled : bool;
  isVammNode : bool
}.

(** Candidates hold references to order-book nodes, not copies. *)
Definition NodeRef : Type := nat.

Record NodeToFill := mkNodeToFill {
  node : NodeRef;
  makerNode : option NodeRef
}.

Record TransactionInstruction := mkIx {
  keys : list PublicKey;
  programId : PublicKey;
  data : list Byte.byte
}.

Definition Transaction : Type := list TransactionInstruction.
Definition TransactionSignature : Type := string.

Record ClearingHouseUser := mkChUser {
  getUserAccountPublicKey : PublicKey;
  authority : PublicKey
}.

Record UserStats := mkUserStats {
  userStatsAccountPublicKey : PublicKey;
  getReferrerInfo : option PublicKey
}.

Record MakerInfo := mkMakerInfo {
  maker : PublicKey;
  makerOrder : Order;
  makerStats : PublicKey
}.

Record NodeFillInfo := mkFillInfo {
  makerInfo : option MakerInfo;
  chUser : ClearingHouseUser;
  referrerInfo : option PublicKey
}.

(** [tx.meta.logMessages]; [None] when [meta] or the array is missing. *)
Record TransactionResponse := mkTxResponse {
  logMessages : option (list (option string))
}.

(** Values that the code throws or receives in a [catch]. *)
Inductive JsError :=
  | E_ALREADY_LOCKED
  | dlobMutexError
  | TypeError (msg : string)
  | SendTransactionError (msg : string) (logs : option (list string))
  | OtherError (msg : string).

Inductive Result (A : Type) :=
  | Ok (a : A)
  | Throw (e : JsError).
Arguments Ok {A} a.
Arguments Throw {A} e.

(** Sequencing of fallible pure steps. *)
Definition rbind {A B} (r : Result A) (k : A -> Result B) : Result B :=
  match r with
  | Ok a => k a
  | Throw e => Throw e
  end.

Notation "'let+' x ':=' c 'in' k" := (rbind c (fun x => k))
  (at level 10, x pattern, c at level 100, k at level 200, only parsing).

(** [logger.info], [logger.warn], [logger.error] and [console.error]. *)
Inductive LogLevel := Info | Warn | Error | ConsoleError.

Inductive MetricEvent :=
  | RecordRpcRequests (what : string)
  | RecordFilledOrder (count : option Z)
  | RecordErrorCode (code : Z)
  | RecordRpcDuration (what : string)
  | RecordMutexBusy
  | RecordFillableOrdersSeen (count : Z)
  | TrackObjectSize (what : string).

(** Where the bounded-wait lock [dlobMutex] is taken. *)
Inductive LockSite :=
  | AtRebuild
  | AtMarket (m : MarketAccount)
  | AtRemove (o : Order) (account : option PublicKey).

(** The mutable state: members of the class, the objects they alias, and the
    observable effects on the collaborators (recorded as traces). *)
Record World := mkWorld {
  nodes : NodeRef -> DLOBNode;
  throttledNodes : gmap string Z;
  periodicTaskMutex : bool;
  clockReads : nat;
  dlobRebuilds : nat;
  dlobRemoved : list (Order * option PublicKey);
  fillOrderCalls : list NodeRef;
  sentTxs : list Transaction;
  metrics : option (list MetricEvent);
  logged : list (LogLevel * string)
}.

Definition with_nodes (f : NodeRef -> DLOBNode) (w : World) : World :=
  mkWorld f (throttledNodes w) (periodicTaskMutex w) (clockReads w)
    (dlobRebuilds w) (dlobRemoved w) (fillOrderCalls w) (sentTxs w)
    (metrics w) (logged w).

Definition with_throttledNodes (m : gmap string Z) (w : World) : World :=
  mkWorld (nodes w) m (periodicTaskMutex w) (clockReads w)
    (dlobRebuilds w) (dlobRemoved w) (fillOrderCalls w) (sentTxs w)
    (metrics w) (logged w).

Definition with_periodicTaskMutex (b : bool) (w : World) : World :=
  mkWorld (nodes w) (throttledNodes w) b (clockReads w)
    (dlobRebuilds w) (dlobRemoved w) (fillOrderCalls w) (sentTxs w)
    (metrics w) (logged w).

Definition with_clockReads (n : nat) (w : World) : World :=
  mkWorld (nodes w) (throttledNodes w) (periodicTaskMutex w) n
    (dlobRebuilds w) (dlobRemoved w) (fillOrderCalls w) (sentTxs w)
    (metrics w) (logged w).

Definition with_dlobRebuilds (n : nat) (w : World) : World :=
  mkWorld (nodes w) (throttledNodes w) (periodicTaskMutex w) (clockReads w)
    n (dlobRemoved w) (fillOrderCalls w) (sentTxs w)
    (metrics w) (logged w).

Definition with_dlobRemoved (l : list (Order * option PublicKey)) (w : World)
  : World :=
  mkWorld (nodes w) (throttledNodes w) (periodicTaskMutex w) (clockReads w)
    (dlobRebuilds w) l (fillOrderCalls w) (sentTxs w)
    (metrics w) (logged w).

Definition with_fillOrderCalls (l : list NodeRef) (w : World) : World :=
  mkWorld (nodes w) (throttledNodes w) (periodicTaskMutex w) (clockReads w)
    (dlobRebuilds w) (dlobRemoved w) l (sentTxs w)
    (metrics w) (logged w).

Definition with_sentTxs (l : list Transaction) (w : World) : World :=
  mkWorld (nodes w) (throttledNodes w) (periodicTaskMutex w) (clockReads w)
    (dlobRebuilds w) (dlobRemoved w) (fillOrderCalls w) l
    (metrics w) (logged w).

Definition with_metrics (m : option (list MetricEvent)) (w : World) : World :=
  mkWorld (nodes w) (throttledNodes w) (periodicTaskMutex w) (clockReads w)
    (dlobRebuilds w) (dlobRemoved w) (fillOrderCalls w) (sentTxs w)
    m (logged w).

Definition with_logged (l : list (LogLevel * string)) (w : World) : World :=
  mkWorld (nodes w) (throttledNodes w) (periodicTaskMutex w) (clockReads w)
    (dlobRebuilds w) (dlobRemoved w) (fillOrderCalls w) (sentTxs w)
    (metrics w) l.

(** ** The monad: state passing with exceptions.  The world survives a throw. *)
Definition M (A : Type) : Type := World -> Result A * World.

Definition ret {A} (a : A) : M A := fun w => (Ok a, w).

Definition throw {A} (e : JsError) : M A := fun w => (Throw e, w).

Definition bind {A B} (c : M A) (k : A -> M B) : M B :=
  fun w =>
    match c w with
    | (Ok a, w') => k a w'
    | (Throw e, w') => (Throw e, w')
    end.

Notation "'let*' x ':=' c 'in' k" := (bind c (fun x => k))
  (at level 10, x pattern, c at level 100, k at level 200, only parsing).

Definition seq {A B} (c : M A) (k : M B) : M B := bind c (fun _ => k).
Infix ">>" := seq (at level 90, right associativity, only parsing).

(** [try c catch h]. *)
Definition try_catch {A} (c : M A) (h : JsError -> M A) : M A :=
  fun w =>
    match c w with
    | (Ok a, w') => (Ok a, w')
    | (Throw e, w') => h e w'
    end.

(** [try c finally f]: [f] runs on both exits; a throw from [f] wins. *)
Definition try_finally {A} (c : M A) (f : M unit) : M A :=
  fun w =>
    match c w with
    | (r, w') =>
        match f w' with
        | (Ok _, w'') => (r, w'')
        | (Throw e, w'') => (Throw e, w'')
        end
    end.

Definition lift {A} (r : Result A) : M A := fun w => (r, w).

Definition get : M World := fun w => (Ok w, w).

Definition modify (f : World -> World) : M unit := fun w => (Ok tt, f w).

Definition when (b : bool) (c : M unit) : M unit := if b then c else ret tt.

(** ** Effects on the collaborators *)

Definition logger (lvl : LogLevel) (msg : string) : M unit :=
  modify (fun w => with_logged (logged w ++ [(lvl, msg)]) w).

(** [this.metrics?.f(...)]: nothing happens when no sink was injected. *)
Definition metric (ev : MetricEvent) : M unit :=
  modify (fun w => with_metrics (option_map (fun l => l ++ [ev]) (metrics w)) w).

(** [x.toString()] on a possibly undefined [x]. *)
Definition toString (what : string) (x : option PublicKey) : Result string :=
  match x with
  | Some s => Ok s
  | None => Throw (TypeError ("Cannot read properties of undefined: " +:+ what))
  end.

(** [x.toNumber()] of a bn.js big number: a value that needs more than 53 bits
    makes it throw. *)
Definition toNumber (z : Z) : Result Z :=
  if Z.abs z <? 2 ^ 53 then Ok z
  else Throw (OtherError "Number can only safely store up to 53 bits").

(** ** Size estimation *)

(** calcCompactU16EncodedSize: only the length of [array] is read.
    [x || 1] is [1] exactly when [x] is falsy, which for a number is zero. *)
Definition calcCompactU16EncodedSize {A} (array : list A) (elemSize : Z) : Z :=
  let len := Z.of_nat (length array) in
  if len >? 0x3fff then 3 + len * elemSize
  else if len >? 0x7f then 2 + len * elemSize
  else 1 + (if len * elemSize =? 0 then 1 else len * elemSize).

(** [new Array(n)]. *)
Definition new_Array (n : nat) : list unit := repeat tt n.

Definition calcIxEncodedSize (ix : TransactionInstruction) : Z :=
  1 + calcCompactU16EncodedSize (new_Array (length (keys ix))) 1
    + calcCompactU16EncodedSize (new_Array (length (data ix))) 1.

(** ** Collaborators

    Everything the bot imports or is handed at construction.  [getErrorCode],
    [getErrorMessage] (../error), the order book (../dlob/DLOB) and the user
    maps (../userMap, ../userStatsMap) belong to the repository but are not
    part of the file under study; like the SDK they are taken as oracles.
    [FILL_ORDER_BACKOFF] is the module constant; the file sets it to [0]
    (see [deployed_FILL_ORDER_BACKOFF]). *)
Record Env := mkEnv {
  name : string;
  dryRun : bool;
  FILL_ORDER_BACKOFF : Z;
  wallet_publicKey : PublicKey;
  computeBudgetIx : TransactionInstruction;
  Date_now : nat -> Z;
  dlobMutex_acquired : LockSite -> bool;
  userMap_mustGet : PublicKey -> Result ClearingHouseUser;
  userStatsMap_mustGet : PublicKey -> Result UserStats;
  getFillOrderIx : PublicKey -> Order -> option MakerInfo -> option PublicKey
                   -> Result TransactionInstruction;
  fillOrder : PublicKey -> Order -> option MakerInfo -> option PublicKey
              -> Result TransactionSignature;
  txSender_send : Transaction -> Result TransactionSignature;
  getTransaction : TransactionSignature -> nat
                   -> Result (option TransactionResponse);
  getErrorCode : JsError -> Z;
  getErrorMessage : JsError -> string;
  getMarketAccounts : list MarketAccount;
  dlob_init : Result unit;
  oraclePrices : MarketAccount -> Result (Z * Z * option Z);
  findNodesToFill : MarketAccount -> Z -> Z -> option Z
                    -> Result (list NodeToFill);
  isFillableByVAMM : Order -> MarketAccount -> bool;
  promiseTimeout_expired : bool
}.

Definition deployed_FILL_ORDER_BACKOFF : Z := 0.

(** [Date.now()]: the next reading of the wall clock. *)
Definition dateNow (env : Env) : M Z :=
  fun w => (Ok (Date_now env (clockReads w)), with_clockReads (S (clockReads w)) w).

(** [await this.dlobMutex.runExclusive(body)]: the wait is bounded, and a wait
    that runs out rejects with [dlobMutexError] without running [body]. *)
Definition dlobMutex_runExclusive {A} (env : Env) (site : LockSite) (body : M A)
  : M A :=
  if dlobMutex_acquired env site then body else throw dlobMutexError.

(** [this.dlob.remove(order, userAccount, cb)], recorded as a trace. *)
Definition dlob_remove (o : Order) (account : option PublicKey) : M unit :=
  modify (fun w => with_dlobRemoved (dlobRemoved w ++ [(o, account)]) w).

Definition throttledNodes_set (sig : string) (now : Z) : M unit :=
  modify (fun w => with_throttledNodes (<[sig := now]> (throttledNodes w)) w).

Definition throttledNodes_delete (sig : string) : M unit :=
  modify (fun w => with_throttledNodes (delete sig (throttledNodes w)) w).

Definition set_haveFilled (b : bool) (n : DLOBNode) : DLOBNode :=
  mkDLOBNode (userAccount n) (order n) (market n) b (isVammNode n).

(** [r.haveFilled = b] through the reference [r]. *)
Definition write_haveFilled (r : NodeRef) (b : bool) : M unit :=
  modify (fun w =>
    with_nodes (fun r' => if Nat.eqb r' r then set_haveFilled b (nodes w r')
                          else nodes w r') w).

(** ** Candidate signature and filter *)

Definition getNodeToFillSignature (w : World) (n : NodeToFill) : string :=
  match userAccount (nodes w (node n)) with
  | None => "~"
  | Some account =>
      account +:+ "-" +:+ pretty (orderId (order (nodes w (node n))))
  end.

Definition vammCheck (env : Env) (w : World) (nodeToFill : NodeToFill) : bool :=
  let n := nodes w (node nodeToFill) in
  match makerNode nodeToFill with
  | None => isFillableByVAMM env (order n) (market n)
  | Some _ => true
  end.

Definition filterFillableNodes (env : Env) (nodeToFill : NodeToFill) : M bool :=
  let* w := get in
  let n := nodes w (node nodeToFill) in
  if isVammNode n then ret false
  else if haveFilled n then ret false
  else
    let sig := getNodeToFillSignature w nodeToFill in
    match throttledNodes w !! sig with
    | Some lastFillAttempt =>
        let* now := dateNow env in
        if lastFillAttempt + FILL_ORDER_BACKOFF env >? now then ret false
        else throttledNodes_delete sig >> ret (vammCheck env w nodeToFill)
    | None => ret (vammCheck env w nodeToFill)
    end.

(** ** Fill information *)

(** getNodeFillInfo only reads the nodes; the two user maps are oracles. *)
Definition getNodeFillInfo (env : Env) (nodeOf : NodeRef -> DLOBNode)
    (nodeToFill : NodeToFill) : Result NodeFillInfo :=
  let+ mi :=
    match makerNode nodeToFill with
    | Some mref =>
        let mk := nodeOf mref in
        let+ makerAccount := toString "userAccount" (userAccount mk) in
        let+ makerUser := userMap_mustGet env makerAccount in
        let+ makerUserStats := userStatsMap_mustGet env (authority makerUser) in
        Ok (Some (mkMakerInfo makerAccount (order mk)
                    (userStatsAccountPublicKey makerUserStats)))
    | None => Ok None
    end in
  let+ account := toString "userAccount" (userAccount (nodeOf (node nodeToFill))) in
  let+ user := userMap_mustGet env account in
  let+ stats := userStatsMap_mustGet env (authority user) in
  Ok (mkFillInfo mi user (getReferrerInfo stats)).

(** ** Single-candidate path *)

Definition tryFillNode_catch (env : Env) (nodeToFill : NodeToFill)
    (error : JsError) : M (option TransactionSignature) :=
  write_haveFilled (node nodeToFill) false >>
  let* w := get in
  let* now := dateNow env in
  throttledNodes_set (getNodeToFillSignature w nodeToFill) now >>
  let errorCode := getErrorCode env error in
  metric (RecordErrorCode errorCode) >>
  let n := nodes w (node nodeToFill) in
  (if String.eqb (getErrorMessage env error) "OrderDoesNotExist"
   then dlobMutex_runExclusive env (AtRemove (order n) (userAccount n))
          (dlob_remove (order n) (userAccount n))
   else ret tt) >>
  let* account := lift (toString "userAccount" (userAccount n)) in
  let* mktIdx := lift (toNumber (marketIndex (market n))) in
  logger Error ("Error (" +:+ pretty errorCode +:+ ") filling user (account: "
                +:+ account +:+ ") order: " +:+ pretty (orderId (order n))
                +:+ ", mktIdx: " +:+ pretty mktIdx) >>
  ret None.

(** The [try] block. *)
Definition tryFillNode_try (env : Env) (nodeToFill : NodeToFill) (n : DLOBNode)
    (account : string) (info : NodeFillInfo) : M (option TransactionSignature) :=
  metric (RecordRpcRequests "fillOrder") >>
  modify (fun w => with_fillOrderCalls (fillOrderCalls w ++ [node nodeToFill]) w) >>
  let* txSig := lift (fillOrder env account (order n)
                        (makerInfo info) (referrerInfo info)) in
  metric (RecordFilledOrder None) >>
  logger Info (name env +:+ " Filled user (account: " +:+ account
               +:+ ") order: " +:+ pretty (orderId (order n))
               +:+ ", Tx: " +:+ txSig) >>
  ret (Some txSig).

(** The method from its first log line on; [account] is the rendering of the
    candidate's account that the log line needs. *)
Definition tryFillNode_fill (env : Env) (nodeToFill : NodeToFill)
    (nodeOf : NodeRef -> DLOBNode) (account : string)
  : M (option TransactionSignature) :=
  let n := nodeOf (node nodeToFill) in
  logger Info (name env +:+ " trying to fill (account: " +:+ account
               +:+ ") order " +:+ pretty (orderId (order n))
               +:+ " on mktIdx: " +:+ pretty (marketIndex (market n))) >>
  let* info := lift (getNodeFillInfo env nodeOf nodeToFill) in
  if dryRun env then
    logger Info (name env +:+ " dry run, not filling") >> ret None
  else
    try_finally
      (try_catch (tryFillNode_try env nodeToFill n account info)
                 (tryFillNode_catch env nodeToFill))
      (metric (RecordRpcDuration "fillOrder")).

Definition tryFillNode (env : Env) (nodeToFill : option NodeToFill)
  : M (option TransactionSignature) :=
  match nodeToFill with
  | None => logger Error (name env +:+ " nodeToFill is null") >> ret None
  | Some nodeToFill =>
      let* w := get in
      let* account :=
        lift (toString "userAccount" (userAccount (nodes w (node nodeToFill)))) in
      tryFillNode_fill env nodeToFill (nodes w) account
  end.

(** ** Reconciliation of a batched submission *)

(** [s.includes(searchString)]. *)
Fixpoint includes (searchString s : string) : bool :=
  if String.prefix searchString s then true
  else match s with
       | EmptyString => false
       | String _ rest => includes searchString rest
       end.

Definition isLogFillOrder (log : string) : bool :=
  String.eqb log "Program log: Instruction: FillOrder".

(** The polling loop: at most ten fetches, until one is not [null]. *)
Fixpoint waitForTransaction (fetch : nat -> Result (option TransactionResponse))
    (txSig : TransactionSignature) (remaining attempts : nat)
  : M (option TransactionResponse) :=
  match remaining with
  | O => ret None
  | S remaining' =>
      logger Info ("waiting for " +:+ txSig +:+ " to be confirmed") >>
      let* tx := lift (fetch attempts) in
      match tx with
      | Some response => ret (Some response)
      | None => waitForTransaction fetch txSig remaining' (S attempts)
      end
  end.

(** The three locals of the log walk. *)
Record LogWalk := mkLogWalk {
  nextIsFillRecord : bool;
  ixIdx : Z;
  successCount : Z
}.

(** [nodesFilled[ixIdx]], [undefined] out of range. *)
Definition array_get {A} (l : list A) (i : Z) : option A :=
  if i <? 0 then None else l !! Z.to_nat i.

(** The two [logger.error] calls that open both failure branches; the second
    dereferences the candidate. *)
Definition logAssocOrder (indent : string) (log : string) (idx : Z)
    (filledNode : option NodeToFill) : M (NodeToFill * DLOBNode) :=
  logger Error (" " +:+ log +:+ ", ix: " +:+ pretty idx) >>
  match filledNode with
  | None => throw (TypeError "Cannot read properties of undefined: node")
  | Some filledNode =>
      let* w := get in
      let n := nodes w (node filledNode) in
      let* account := lift (toString "userAccount" (userAccount n)) in
      let* id := lift (toNumber (orderId (order n))) in
      logger Error (indent +:+ "assoc order: " +:+ account +:+ ", "
                    +:+ pretty id) >>
      ret (filledNode, n)
  end.

(** The branch taken on the line that follows a fill marker. *)
Definition processFillRecord (env : Env) (nodesFilled : list NodeToFill)
    (st : LogWalk) (log : string) : M LogWalk :=
  if includes "Order does not exist" log then
    let* (filledNode, n) :=
      logAssocOrder "   " log (ixIdx st) (array_get nodesFilled (ixIdx st)) in
    dlobMutex_runExclusive env (AtRemove (order n) (userAccount n))
      (dlob_remove (order n) (userAccount n)) >>
    ret st
  else if includes "Amm cant fulfill order" log then
    let* (filledNode, n) :=
      logAssocOrder "  " log (ixIdx st) (array_get nodesFilled (ixIdx st)) in
    let* w := get in
    let* now := dateNow env in
    throttledNodes_set (getNodeToFillSignature w filledNode) now >>
    ret st
  else if Z.of_nat (String.length log) >? 50 then
    ret (mkLogWalk (nextIsFillRecord st) (ixIdx st) (successCount st + 1))
  else
    logger Info (" how parse log?: " +:+ log) >> ret st.

Definition processLog (env : Env) (nodesFilled : list NodeToFill)
    (txSig : TransactionSignature) (st : LogWalk) (log : option string)
  : M LogWalk :=
  match log with
  | None => logger Error ("null log message on tx: " +:+ txSig) >> ret st
  | Some log =>
      if nextIsFillRecord st then
        let* st' := processFillRecord env nodesFilled st log in
        ret (mkLogWalk false (ixIdx st') (successCount st'))
      else if isLogFillOrder log then
        ret (mkLogWalk true (ixIdx st + 1) (successCount st))
      else ret st
  end.

Fixpoint processLogs (env : Env) (nodesFilled : list NodeToFill)
    (txSig : TransactionSignature) (st : LogWalk) (logs : list (option string))
  : M LogWalk :=
  match logs with
  | [] => ret st
  | log :: rest =>
      let* st' := processLog env nodesFilled txSig st log in
      processLogs env nodesFilled txSig st' rest
  end.

Definition processBulkFillTxLogs (env : Env) (nodesFilled : list NodeToFill)
    (txSig : TransactionSignature) : M unit :=
  let* tx := waitForTransaction (getTransaction env txSig) txSig 10 0 in
  match tx with
  | None => logger Error ("tx " +:+ txSig +:+ " not found")
  | Some response =>
      match logMessages response with
      | None => throw (TypeError "tx.meta.logMessages is not iterable")
      | Some logs =>
          let* st := processLogs env nodesFilled txSig (mkLogWalk false (-1) 0) logs in
          metric (RecordFilledOrder (Some (successCount st)))
      end
  end.

(** ** Batch packer *)

Definition maxTxSize : Z := 1000.

Record PendingBatch := mkBatch {
  tx : Transaction;
  runningTxSize : Z;
  uniqueAccounts : gset string;
  nodesSent : list NodeToFill;
  idxUsed : Z
}.

(** The barebones transaction: fee payer, compute-budget instruction, and the
    fixed parts of the envelope. *)
Definition envelopeAccounts (env : Env) : gset string :=
  {[ wallet_publicKey env ]}
  ∪ list_to_set (keys (computeBudgetIx env))
  ∪ {[ programId (computeBudgetIx env) ]}.

Definition initialBatch (env : Env) : PendingBatch :=
  let uniqueAccounts := envelopeAccounts env in
  mkBatch [computeBudgetIx env]
    (0 + calcCompactU16EncodedSize (new_Array 1) 64
       + 3
       + calcCompactU16EncodedSize (new_Array (size uniqueAccounts)) 32
       + 32
       + calcIxEncodedSize (computeBudgetIx env))
    uniqueAccounts [] 0.

(** [ixKeys.concat(ix.programId).filter(key => !uniqueAccounts.has(key))]:
    a key that occurs twice in the instruction is listed twice. *)
Definition newAccountsOf (uniqueAccounts : gset string)
    (ix : TransactionInstruction) : list PublicKey :=
  List.filter (fun key => negb (bool_decide (key ∈ uniqueAccounts)))
    (keys ix ++ [programId ix]).

Definition additionalAccountsCost (newAccounts : list PublicKey) : Z :=
  if Z.of_nat (length newAccounts) >? 0
  then calcCompactU16EncodedSize newAccounts 32 - 1
  else 0.

(** The instruction a candidate resolves to: getNodeFillInfo, then the SDK's
    getFillOrderIx. *)
Definition resolveFillOrderIx (env : Env) (nodeOf : NodeRef -> DLOBNode)
    (nodeToFill : NodeToFill) : Result (NodeFillInfo * TransactionInstruction) :=
  let+ info := getNodeFillInfo env nodeOf nodeToFill in
  let+ ix := getFillOrderIx env (getUserAccountPublicKey (chUser info))
               (order (nodeOf (node nodeToFill)))
               (makerInfo info) (referrerInfo info) in
  Ok (info, ix).

(** What the loop adds to the running size for [ix]. *)
Definition estimatedCost (uniqueAccounts : gset string)
    (ix : TransactionInstruction) : Z :=
  calcIxEncodedSize ix + additionalAccountsCost (newAccountsOf uniqueAccounts ix).

(** The statements after the size check. *)
Definition addToBatch (pb : PendingBatch) (nodeToFill : NodeToFill)
    (ix : TransactionInstruction) : PendingBatch :=
  let newAccounts := newAccountsOf (uniqueAccounts pb) ix in
  mkBatch (tx pb ++ [ix])
    (runningTxSize pb
     + (calcIxEncodedSize ix + additionalAccountsCost newAccounts))
    (list_to_set newAccounts ∪ uniqueAccounts pb)
    (nodesSent pb ++ [nodeToFill])
    (idxUsed pb + 1).

(** One iteration of the packing loop; [None] is [break]. *)
Definition packNode (env : Env) (pb : PendingBatch) (nodeToFill : NodeToFill)
  : M (option PendingBatch) :=
  let* w := get in
  let* (info, ix) := lift (resolveFillOrderIx env (nodes w) nodeToFill) in
  let newAccounts := newAccountsOf (uniqueAccounts pb) ix in
  let newIxCost := calcIxEncodedSize ix in
  if runningTxSize pb + newIxCost + additionalAccountsCost newAccounts
     >=? maxTxSize
  then ret None
  else
    logger Info ("including tx " +:+ getUserAccountPublicKey (chUser info)
                 +:+ "-" +:+ pretty (orderId (order (nodes w (node nodeToFill))))) >>
    ret (Some (addToBatch pb nodeToFill ix)).

Fixpoint packNodes (env : Env) (pb : PendingBatch) (nodesToFill : list NodeToFill)
  : M PendingBatch :=
  match nodesToFill with
  | [] => ret pb
  | nodeToFill :: rest =>
      let* r := packNode env pb nodeToFill in
      match r with
      | None => ret pb
      | Some pb' => packNodes env pb' rest
      end
  end.

(** [simError.logs] of a caught value: only a SendTransactionError carries
    logs, and even there the field is optional. *)
Definition error_logs (e : JsError) : option (list string) :=
  match e with
  | SendTransactionError _ logs => logs
  | _ => None
  end.

Fixpoint logEach (lvl : LogLevel) (lines : list string) : M unit :=
  match lines with
  | [] => ret tt
  | l :: rest => logger lvl l >> logEach lvl rest
  end.

(** The [catch] of the batched submission. *)
Definition tryBulkFillNodes_catch (e : JsError)
  : M (option TransactionSignature) :=
  logger Error "failed to send packed tx:" >>
  logger ConsoleError "" >>
  match error_logs e with
  | Some logs => logEach Error logs >> ret None
  | None => throw (TypeError "simError.logs is not iterable")
  end.

(** The result is [Some ""] for [''], [None] for [undefined]. *)
Definition tryBulkFillNodes (env : Env) (nodesToFill : list NodeToFill)
  : M (option TransactionSignature) :=
  let* pb := packNodes env (initialBatch env) nodesToFill in
  logger Info "txPacker took" >>
  if Nat.eqb (length (nodesSent pb)) 0 then
    logger Info "no ix" >> ret (Some "")
  else
    logger Info ("sending tx, " +:+ pretty (Z.of_nat (size (uniqueAccounts pb)))
                 +:+ " unique accounts, total ix: " +:+ pretty (idxUsed pb)
                 +:+ ", calcd tx size: " +:+ pretty (runningTxSize pb)) >>
    try_catch
      (modify (fun w => with_sentTxs (sentTxs w ++ [tx pb]) w) >>
       let* txSig := lift (txSender_send env (tx pb)) in
       logger Info ("sent tx: " +:+ txSig) >>
       metric (RecordRpcDuration "send") >>
       processBulkFillTxLogs env (nodesSent pb) txSig >>
       logger Info "parse logs took" >>
       metric (RecordRpcDuration "processLogs") >>
       metric (RecordFilledOrder (Some (Z.of_nat (length (nodesSent pb))))) >>
       ret (Some txSig))
      tryBulkFillNodes_catch.

(** ** The cycle *)

(** getFillableNodesForMarket: prices and oracle validity come from the SDK,
    the search from the order book, under the snapshot lock. *)
Definition getFillableNodesForMarket (env : Env) (market : MarketAccount)
  : M (list NodeToFill) :=
  let* (vBid, vAsk, oracle) := lift (oraclePrices env market) in
  dlobMutex_runExclusive env (AtMarket market)
    (lift (findNodesToFill env market vBid vAsk oracle)).

Fixpoint collectFillableNodes (env : Env) (fillableNodes : list NodeToFill)
    (markets : list MarketAccount) : M (list NodeToFill) :=
  match markets with
  | [] => ret fillableNodes
  | market :: rest =>
      let* found := getFillableNodesForMarket env market in
      collectFillableNodes env (fillableNodes ++ found) rest
  end.

(** [fillableNodes.filter(node => this.filterFillableNodes(node))]. *)
Fixpoint filterNodes (env : Env) (l : list NodeToFill) : M (list NodeToFill) :=
  match l with
  | [] => ret []
  | n :: rest =>
      let* keep := filterFillableNodes env n in
      let* kept := filterNodes env rest in
      ret (if keep then n :: kept else kept)
  end.

(** [promiseTimeout(p, 15000)]: [None] is the [null] of an expired timer.  The
    submission is not cancelled by the timer; its effects are applied here,
    and its late result or rejection is dropped. *)
Definition promiseTimeout {A} (env : Env) (p : M A) : M (option A) :=
  if promiseTimeout_expired env then
    fun w => (Ok None, snd (p w))
  else
    let* a := p in ret (Some a).

(** [tryAcquire(mutex).runExclusive(body)]: no waiting; the mutex is released
    on both exits of [body]. *)
Definition tryAcquire_runExclusive {A} (body : M A) : M A :=
  let* w := get in
  if periodicTaskMutex w then throw E_ALREADY_LOCKED
  else
    modify (with_periodicTaskMutex true) >>
    try_finally body (modify (with_periodicTaskMutex false)).

Definition tryFill_body (env : Env) : M unit :=
  dlobMutex_runExclusive env AtRebuild
    (modify (fun w => with_dlobRebuilds (S (dlobRebuilds w)) w) >>
     metric (TrackObjectSize "filler-dlob") >>
     lift (dlob_init env)) >>
  let* fillableNodes := collectFillableNodes env [] (getMarketAccounts env) in
  let* filteredNodes := filterNodes env fillableNodes in
  metric (RecordFillableOrdersSeen (Z.of_nat (length filteredNodes))) >>
  let* fillResult := promiseTimeout env (tryBulkFillNodes env filteredNodes) in
  match fillResult with
  | None => logger Error "Timeout tryFill"
  | Some _ => ret tt
  end.

(** The [catch] of the cycle entry point. *)
Definition tryFill_catch (env : Env) (e : JsError) : M unit :=
  match e with
  | E_ALREADY_LOCKED => metric RecordMutexBusy
  | dlobMutexError => logger Error (name env +:+ " dlobMutexError timeout")
  | _ => throw e
  end.

(** tryFill.  The local [ran] becomes true as the last statement of the body,
    so the [finally] block reports exactly when the body completed. *)
Definition tryFill (env : Env) : M unit :=
  let* ran :=
    try_catch
      (tryAcquire_runExclusive (tryFill_body env) >> ret true)
      (fun e => tryFill_catch env e >> ret false) in
  when ran
    (metric (RecordRpcDuration "tryFill") >> logger Info "tryFill done").

(** ** Invariants of the world *)

(** [c] maintains [P], on both of its exits. *)
Definition preserves {A} (P : World -> Prop) (c : M A) : Prop :=
  forall w, P w -> P (snd (c w)).

(** No entry of the throttle registry is keyed by the sentinel signature. *)
Definition sentinel_free (w : World) : Prop := throttledNodes w !! "~" = None.

(** The methods of the bot, as calls that can be made one after another. *)
Inductive BotCall :=
  | CallTryFill
  | CallTryFillNode (nodeToFill : option NodeToFill)
  | CallTryBulkFillNodes (nodesToFill : list NodeToFill)
  | CallProcessBulkFillTxLogs (nodesFilled : list NodeToFill)
      (txSig : TransactionSignature)
  | CallFilterFillableNodes (nodeToFill : NodeToFill).

Definition run (env : Env) (call : BotCall) (w : World) : World :=
  match call with
  | CallTryFill => snd (tryFill env w)
  | CallTryFillNode nodeToFill => snd (tryFillNode env nodeToFill w)
  | CallTryBulkFillNodes nodesToFill => snd (tryBulkFillNodes env nodesToFill w)
  | CallProcessBulkFillTxLogs nodesFilled txSig =>
      snd (processBulkFillTxLogs env nodesFilled txSig w)
  | CallFilterFillableNodes nodeToFill => snd (filterFillableNodes env nodeToFill w)
  end.

(** Worlds a bot can be in: it is constructed with an empty registry, runs its
    methods against collaborators that may answer differently each time, and
    in between the order book may replace or rewrite its nodes. *)
Inductive reachable : World -> Prop :=
  | reachable_new w : throttledNodes w = ∅ -> reachable w
  | reachable_call env call w : reachable w -> reachable (run env call w)
  | reachable_orderbook f w : reachable w -> reachable (with_nodes f w).

(** The registry is free of the sentinel and candidate [c] has account [a]. *)
Definition sentinel_free_with_account (c : NodeToFill) (a : PublicKey)
    (w : World) : Prop :=
  sentinel_free w /\ userAccount (nodes w (node c)) = Some a.

(** ** The size rule as the specification words it *)

(** Cost of the variable-width length prefix of an array of [n] elements. *)
Definition spec_prefixCost (n : Z) : Z :=
  if n <=? 127 then 1 else if n <=? 16383 then 2 else 3.

(** Prefix cost plus the payload's own byte length. *)
Definition spec_encodedSize (n e : Z) : Z := spec_prefixCost n + n * e.

(** ** A concrete deployment, used to run the model *)

Definition demo_computeBudgetIx : TransactionInstruction :=
  mkIx [] "ComputeBudget111111111111111111111111111111" (repeat Byte.x00 9).

(** A fill instruction over five accounts of the user and [dataLen] bytes. *)
Definition demo_fillIx (user : PublicKey) (dataLen : nat)
  : TransactionInstruction :=
  mkIx ["state"; user; user +:+ "/stats"; "filler"; "fillerStats"]
       "clearingHouse" (repeat Byte.x00 dataLen).

Definition demo_env_of (dry : bool)
    (send : Transaction -> Result TransactionSignature)
    (fetch : nat -> Result (option TransactionResponse))
    (acquired : LockSite -> bool) (found : list NodeToFill) : Env :=
  mkEnv "filler" dry 5000 "payer" demo_computeBudgetIx
    (fun k => 1000 * Z.of_nat k)
    acquired
    (fun account => Ok (mkChUser account (account +:+ "/authority")))
    (fun auth => Ok (mkUserStats (auth +:+ "/stats") None))
    (fun user o _ _ => Ok (demo_fillIx user (Z.to_nat (orderId o))))
    (fun _ _ _ _ => Throw (SendTransactionError "fill failed" (Some [])))
    send
    (fun _ => fetch)
    (fun _ => 6000)
    (fun _ => "OrderDoesNotExist")
    [mkMarket 0]
    (Ok tt)
    (fun _ => Ok (1, 2, None))
    (fun _ _ _ _ => Ok found)
    (fun _ _ => true)
    false.

(** The line that announces the result of one fill instruction. *)
Definition FillMarker : string := "Program log: Instruction: FillOrder".

(** An outcome record for three fills: a stale order, a rejection by the
    automated counterparty, and sixty characters of event data. *)
Definition demo_logMessages : list (option string) :=
  [Some FillMarker; Some "Program log: Order does not exist";
   Some FillMarker; Some "Program log: Amm cant fulfill order";
   Some FillMarker;
   Some "Program data: AAAAAAAAAAAAAAAAAAAAAAAAAAAAAAAAAAAAAAAAAAAAAA"].

(** The outcome record is found on the third fetch. *)
Definition demo_fetch (attempt : nat) : Result (option TransactionResponse) :=
  if Nat.ltb attempt 2 then Ok None
  else Ok (Some (mkTxResponse (Some demo_logMessages))).

Definition demo_env : Env :=
  demo_env_of false (fun _ => Ok "sig") demo_fetch (fun _ => true) [].

(** Node [r] is the order of user [r] whose id is [100 * r]; in [demo_env] the
    id is also the length of the instruction data. *)
Definition demo_nodes (r : NodeRef) : DLOBNode :=
  mkDLOBNode (Some ("user" +:+ pretty (Z.of_nat r)))
    (mkOrder (100 * Z.of_nat r)) (mkMarket 0) false false.

Definition demo_world : World :=
  mkWorld demo_nodes ∅ false 0 0 [] [] [] (Some []) [].

(** A world in which an attempt on user 1's order was recorded at time 0, and
    the clock has been read [reads] times since. *)
Definition demo_throttled_world (reads : nat) : World :=
  mkWorld demo_nodes {[ "user1-100" := 0 ]} false reads 0 [] [] []
    (Some []) [].

(** A candidate without an account reference, at node 7. *)
Definition demo_sentinel_nodes (r : NodeRef) : DLOBNode :=
  if Nat.eqb r 7 then mkDLOBNode None (mkOrder 700) (mkMarket 0) false false
  else demo_nodes r.

Definition demo_sentinel_world : World :=
  mkWorld demo_sentinel_nodes ∅ false 0 0 [] [] [] (Some []) [].

Definition demo_sentinel_candidate : NodeToFill := mkNodeToFill 7%nat None.

(** The same collaborators with the [dryRun] flag set to [b]. *)
Definition with_dryRun (b : bool) (env : Env) : Env :=
  mkEnv (name env) b (FILL_ORDER_BACKOFF env) (wallet_publicKey env)
    (computeBudgetIx env) (Date_now env) (dlobMutex_acquired env)
    (userMap_mustGet env) (userStatsMap_mustGet env) (getFillOrderIx env)
    (fillOrder env) (txSender_send env) (getTransaction env)
    (getErrorCode env) (getErrorMessage env) (getMarketAccounts env)
    (dlob_init env) (oraclePrices env) (findNodesToFill env)
    (isFillableByVAMM env) (promiseTimeout_expired env).

(** What the [catch] of the single-candidate path does to the nodes. *)
Definition mark_unfilled (r : NodeRef) (nodeOf : NodeRef -> DLOBNode)
  : NodeRef -> DLOBNode :=
  fun r' => if Nat.eqb r' r then set_haveFilled false (nodeOf r') else nodeOf r'.

(** Every node already marked as filled by the order book. *)
Definition demo_filled_world : World :=
  mkWorld (fun r => set_haveFilled true (demo_nodes r)) ∅ false 0 0 [] [] []
    (Some []) [].

Definition demo_env_dry : Env :=
  demo_env_of true (fun _ => Ok "sig") demo_fetch (fun _ => true) [].

(** The batched submission is refused and the diagnostics say why. *)
Definition demo_env_send_fails : Env :=
  demo_env_of false
    (fun _ => Throw (SendTransactionError "Transaction simulation failed"
                       (Some ["Program log: Instruction: FillOrder";
                              "Program log: Order does not exist"])))
    demo_fetch (fun _ => true) [].

(** Four candidates: users 1, 2, 3 and user 1 again. *)
Definition demo_candidates : list NodeToFill :=
  [mkNodeToFill 1%nat None; mkNodeToFill 2%nat None; mkNodeToFill 3%nat None;
   mkNodeToFill 1%nat None].

(** What one market contributes to the selection: getFillableNodesForMarket
    without the world, which it does not touch. *)
Definition marketResult (env : Env) (market : MarketAccount)
  : Result (list NodeToFill) :=
  let+ (vBid, vAsk, oracle) := oraclePrices env market in
  if dlobMutex_acquired env (AtMarket market)
  then findNodesToFill env market vBid vAsk oracle
  else Throw dlobMutexError.

(** A cycle is already in flight. *)
Definition demo_busy_world : World :=
  mkWorld demo_nodes ∅ true 0 0 [] [] [] (Some []) [].

Definition demo_env_rebuild_times_out : Env :=
  demo_env_of false (fun _ => Ok "sig") demo_fetch
    (fun site => match site with AtRebuild => false | _ => true end) [].

Definition demo_env_market_times_out : Env :=
  demo_env_of false (fun _ => Ok "sig") demo_fetch
    (fun site => match site with AtMarket _ => false | _ => true end) [].

(** The sender fails with an error that carries no logs. *)
Definition demo_env_unexpected : Env :=
  demo_env_of false (fun _ => Throw (OtherError "socket hang up")) demo_fetch
    (fun _ => true) (take 1 demo_candidates).

(** One stale order: the outcome record of the submission says that the order
    of the only packed candidate does not exist. *)
Definition demo_stale_record : TransactionResponse :=
  mkTxResponse
    (Some [Some FillMarker; Some "Program log: Order does not exist"]).

(** The selection finds user 1's order, the submission succeeds, the outcome
    record reports the order as stale, and the wait for the order-book lock
    at the removal times out. *)
Definition demo_env_removal_times_out : Env :=
  demo_env_of false (fun _ => Ok "sig") (fun _ => Ok (Some demo_stale_record))
    (fun site => match site with AtRemove _ _ => false | _ => true end)
    (take 1 demo_candidates).

(** The order of user 1 has an id that does not fit in 53 bits. *)
Definition demo_large_id_nodes (r : NodeRef) : DLOBNode :=
  if Nat.eqb r 1
  then mkDLOBNode (Some "user1") (mkOrder (2 ^ 53)) (mkMarket 0) false false
  else demo_nodes r.

Definition demo_large_id_world : World :=
  mkWorld demo_large_id_nodes ∅ false 0 0 [] [] [] (Some []) [].

(** ** Tactics *)

Ltac world_simpl :=
  cbn [nodes throttledNodes periodicTaskMutex clockReads dlobRebuilds
       dlobRemoved fillOrderCalls sentTxs metrics logged
       with_nodes with_throttledNodes with_periodicTaskMutex with_clockReads
       with_dlobRebuilds with_dlobRemoved with_fillOrderCalls with_sentTxs
       with_metrics with_logged fst snd
       nextIsFillRecord ixIdx successCount logMessages].

(** One step of symbolic execution of the monad. *)
Ltac mstep :=
  unfold seq, bind, logger, metric, modify, get, lift, ret, throw, dateNow,
    throttledNodes_set, throttledNodes_delete, dlob_remove,
    dlobMutex_runExclusive;
  world_simpl.

(** The loop invariant: a batch that holds a candidate is under the budget. *)
Definition within_budget (pb : PendingBatch) : Prop :=
  nodesSent pb <> [] -> runningTxSize pb < maxTxSize.

(** ** The estimate recomputed from a finished batch

    The comment above the running counter (lines 471-481) says what it stands
    for at all times: the signature array, the message header, the account
    array, the block hash and the instructions. *)

Definition accountsOf (ix : TransactionInstruction) : list PublicKey :=
  keys ix ++ [programId ix].

Definition sumIxSizes (t : Transaction) : Z :=
  foldr (fun ix acc => calcIxEncodedSize ix + acc) 0 t.

Definition recomputedTxSize (pb : PendingBatch) : Z :=
  calcCompactU16EncodedSize (new_Array 1) 64
  + 3
  + calcCompactU16EncodedSize (new_Array (size (uniqueAccounts pb))) 32
  + 32
  + sumIxSizes (tx pb).

(** An instruction that names one account twice. *)
Definition demo_dupIx : TransactionInstruction :=
  mkIx ["state"; "state"] "clearingHouse" (repeat Byte.x00 4).

(** ** Counting the fill records of an outcome log *)

Definition isMarkerLine (log : option string) : bool :=
  match log with
  | Some l => isLogFillOrder l
  | None => false
  end.

Definition countMarkers (logs : list (option string)) : nat :=
  length (List.filter isMarkerLine logs).

(** The locals of the log walk before its first line. *)
Definition initialLogWalk : LogWalk := mkLogWalk false (-1) 0.

(** An outcome record that is never found. *)
Definition demo_env_not_found : Env :=
  demo_env_of false (fun _ => Ok "sig") (fun _ => Ok None) (fun _ => true) [].

(** ** Event trigger

    The record handed to [trigger] is dispatched on its [eventType] tag.  The
    two [updateWithOrder] methods of the user maps are oracles, given as
    arguments. *)

Record EventRecord := mkEvent {
  eventType : string;
  userAuthority : option PublicKey
}.

Definition trigger (env : Env)
    (userMap_updateWithOrder userStatsMap_updateWithOrder
       : EventRecord -> Result unit)
    (record : EventRecord) : M unit :=
  if String.eqb (eventType record) "OrderRecord" then
    lift (userMap_updateWithOrder record) >>
    lift (userStatsMap_updateWithOrder record) >>
    tryFill env
  else if String.eqb (eventType record) "NewUserRecord" then
    let* authority := lift (toString "userAuthority" (userAuthority record)) in
    let* _ := lift (userMap_mustGet env authority) in
    let* _ := lift (userStatsMap_mustGet env authority) in
    ret tt
  else ret tt.

(** No dash occurs in the string (true of a base-58 rendering). *)
Definition dash_free (s : string) : Prop := includes "-" s = false.

(** Collaborators whose [fillOrder] succeeds. *)
Definition demo_env_fill_ok : Env :=
  mkEnv "filler" false 5000 "payer" demo_computeBudgetIx
    (fun k => 1000 * Z.of_nat k)
    (fun _ => true)
    (fun account => Ok (mkChUser account (account +:+ "/authority")))
    (fun auth => Ok (mkUserStats (auth +:+ "/stats") None))
    (fun user o _ _ => Ok (demo_fillIx user (Z.to_nat (orderId o))))
    (fun _ _ _ _ => Ok "fillsig")
    (fun _ => Ok "sig")
    (fun _ => demo_fetch)
    (fun _ => 6000)
    (fun _ => "OrderDoesNotExist")
    [mkMarket 0]
    (Ok tt)
    (fun _ => Ok (1, 2, None))
    (fun _ _ _ _ => Ok [])
    (fun _ _ => true)
    false.

(** The cycle has sent nothing, or one transaction, since [w]. *)
Definition sent_at_most_one_since (w w' : World) : Prop :=
  sentTxs w' = sentTxs w \/ exists t, sentTxs w' = sentTxs w ++ [t].

(** * Properties *)

(** ** Size estimation *)

Lemma calcCompactU16EncodedSize_ge_1 {A} (array : list A) (e : Z) :
  0 <= e -> 1 <= calcCompactU16EncodedSize array e.
Proof.
  intros He. unfold calcCompactU16EncodedSize.
  set (len := Z.of_nat (length array)).
  assert (0 <= len) by (unfold len; lia).
  destruct (len >? 16383) eqn:E1; [nia|].
  destruct (len >? 127) eqn:E2; [nia|].
  destruct (len * e =? 0) eqn:E3; [lia|].
  apply Z.eqb_neq in E3. nia.
Qed.

Lemma calcIxEncodedSize_ge_3 (ix : TransactionInstruction) :
  3 <= calcIxEncodedSize ix.
Proof.
  unfold calcIxEncodedSize.
  pose proof (calcCompactU16EncodedSize_ge_1 (new_Array (length (keys ix))) 1).
  pose proof (calcCompactU16EncodedSize_ge_1 (new_Array (length (data ix))) 1).
  lia.
Qed.

Lemma additionalAccountsCost_nonneg (newAccounts : list PublicKey) :
  0 <= additionalAccountsCost newAccounts.
Proof.
  unfold additionalAccountsCost.
  destruct (Z.of_nat (length newAccounts) >? 0); [|lia].
  pose proof (calcCompactU16EncodedSize_ge_1 newAccounts 32). lia.
Qed.

(** C2 (the code at the failing input): the empty array, as
    calcIxEncodedSize passes it for an instruction without accounts, is
    charged two bytes.  The table above the function encodes the length 0 as
    the single byte [0x00], and prefix plus payload is one byte. *)
Theorem calcCompactU16EncodedSize_empty_array :
  calcCompactU16EncodedSize (new_Array 0) 1 = 2 /\
  spec_encodedSize 0 1 = 1 /\
  calcCompactU16EncodedSize (new_Array 0) 1 <> spec_encodedSize 0 1.
Proof. split; [reflexivity | split; [reflexivity | discriminate]]. Qed.

(** The function in closed form: the prefix cost (1 byte up to 127 elements,
    2 bytes up to 16383, 3 bytes above) plus the payload length [n * e],
    except that a payload of zero bytes in the one-byte-prefix range is
    charged as one byte. *)
Lemma calcCompactU16EncodedSize_closed_form {A} (array : list A) (e : Z) :
  let n := Z.of_nat (length array) in
  calcCompactU16EncodedSize array e =
    spec_prefixCost n
    + (if (n <=? 127) && (n * e =? 0) then 1 else n * e).
Proof.
  cbv zeta. unfold calcCompactU16EncodedSize, spec_prefixCost.
  set (n := Z.of_nat (length array)).
  destruct (n >? 16383) eqn:E1, (n >? 127) eqn:E2,
           (n <=? 127) eqn:E3, (n <=? 16383) eqn:E4; simpl; try lia.
Qed.

(** ** Batch packer *)

Lemma nodes_with_logged l w : nodes (with_logged l w) = nodes w.
Proof. reflexivity. Qed.

(** One iteration, in closed form: it throws what the resolution throws, breaks
    when the estimate reaches the budget, and otherwise logs one line and
    extends the batch. *)
Lemma packNode_unfold env pb c w :
  packNode env pb c w =
  match resolveFillOrderIx env (nodes w) c with
  | Throw e => (Throw e, w)
  | Ok (info, ix) =>
      if runningTxSize pb + calcIxEncodedSize ix
         + additionalAccountsCost (newAccountsOf (uniqueAccounts pb) ix)
         >=? maxTxSize
      then (Ok None, w)
      else (Ok (Some (addToBatch pb c ix)),
            with_logged
              (logged w ++
               [(Info, "including tx " +:+ getUserAccountPublicKey (chUser info)
                       +:+ "-" +:+ pretty (orderId (order (nodes w (node c)))))])
              w)
  end.
Proof.
  unfold packNode, bind, get, lift.
  destruct (resolveFillOrderIx env (nodes w) c) as [[info ix]|e]; [|reflexivity].
  destruct (_ >=? _); reflexivity.
Qed.

Lemma packNode_nodes env pb c w r w' :
  packNode env pb c w = (r, w') -> nodes w' = nodes w.
Proof.
  rewrite packNode_unfold.
  destruct (resolveFillOrderIx env (nodes w) c) as [[info ix]|e].
  - destruct (_ >=? _); intros [= <- <-]; reflexivity.
  - intros [= <- <-]; reflexivity.
Qed.

Lemma packNode_accept env pb c w pb' w' :
  packNode env pb c w = (Ok (Some pb'), w') ->
  exists info ix,
    resolveFillOrderIx env (nodes w) c = Ok (info, ix) /\
    pb' = addToBatch pb c ix /\
    runningTxSize pb' < maxTxSize.
Proof.
  rewrite packNode_unfold.
  destruct (resolveFillOrderIx env (nodes w) c) as [[info ix]|e]; [|discriminate].
  destruct (_ >=? _) eqn:E; [discriminate|].
  intros [= <- <-]. exists info, ix. repeat split.
  rewrite Z.geb_leb in E. apply Z.leb_gt in E. simpl. lia.
Qed.

Lemma packNode_break env pb c w w' :
  packNode env pb c w = (Ok None, w') ->
  w' = w /\
  exists info ix,
    resolveFillOrderIx env (nodes w) c = Ok (info, ix) /\
    runningTxSize pb + calcIxEncodedSize ix
      + additionalAccountsCost (newAccountsOf (uniqueAccounts pb) ix)
      >= maxTxSize.
Proof.
  rewrite packNode_unfold.
  destruct (resolveFillOrderIx env (nodes w) c) as [[info ix]|e]; [|discriminate].
  destruct (_ >=? _) eqn:E; [|discriminate].
  intros [= <-]. split; [reflexivity|]. exists info, ix. split; [reflexivity|].
  rewrite Z.geb_leb in E. apply Z.leb_le in E. lia.
Qed.

Lemma packNodes_cons env pb c rest w :
  packNodes env pb (c :: rest) w =
  match packNode env pb c w with
  | (Ok None, w') => (Ok pb, w')
  | (Ok (Some pb'), w') => packNodes env pb' rest w'
  | (Throw e, w') => (Throw e, w')
  end.
Proof.
  simpl. unfold bind.
  destruct (packNode env pb c w) as [[[pb'|]|e] w']; reflexivity.
Qed.

Lemma packNodes_invariant env (P : PendingBatch -> Prop) :
  (forall pb, runningTxSize pb < maxTxSize -> nodesSent pb <> [] -> P pb) ->
  forall nodesToFill pb0 w pb w',
    P pb0 ->
    packNodes env pb0 nodesToFill w = (Ok pb, w') ->
    P pb.
Proof.
  intros HP. induction nodesToFill as [|c rest IH]; intros pb0 w pb w' H0.
  - intros [= <- <-]. exact H0.
  - rewrite packNodes_cons.
    destruct (packNode env pb0 c w) as [[[pb1|]|e] w1] eqn:E.
    + apply IH. apply packNode_accept in E as (info & ix & _ & -> & Hlt).
      apply HP; [exact Hlt|]. simpl. intros Heq.
      apply app_eq_nil in Heq as [_ Heq]. discriminate.
    + intros [= <- <-]. exact H0.
    + discriminate.
Qed.

(** The packer returns a batch whenever every candidate resolves to an
    instruction: the loop is total. *)
Lemma packNodes_total env nodesToFill :
  forall pb0 w,
    (forall c, In c nodesToFill ->
       exists r, resolveFillOrderIx env (nodes w) c = Ok r) ->
    exists pb w', packNodes env pb0 nodesToFill w = (Ok pb, w').
Proof.
  induction nodesToFill as [|c rest IH]; intros pb0 w Hres.
  - exists pb0, w. reflexivity.
  - rewrite packNodes_cons.
    destruct (packNode env pb0 c w) as [[[pb1|]|e] w1] eqn:E.
    + apply IH. intros c' Hin. rewrite (packNode_nodes _ _ _ _ _ _ E).
      apply Hres. right. exact Hin.
    + eauto.
    + exfalso. rewrite packNode_unfold in E.
      destruct (Hres c (or_introl eq_refl)) as [[info ix] Hr].
      rewrite Hr in E. destruct (_ >=? _); discriminate.
Qed.

(** C1: whatever candidates are offered, the state of the packing loop after
    any number [k] of them satisfies the budget invariant: a batch that holds
    an accepted candidate has a running estimated size below [maxTxSize], and
    the running size stays below it throughout when the bare envelope starts
    below it.  With [k] at least the number of candidates this is the batch
    that is submitted. *)
Theorem packer_never_exceeds_budget env nodesToFill (k : nat) w pb w' :
  packNodes env (initialBatch env) (take k nodesToFill) w = (Ok pb, w') ->
  (nodesSent pb <> [] -> runningTxSize pb < maxTxSize) /\
  (runningTxSize (initialBatch env) < maxTxSize ->
   runningTxSize pb <= maxTxSize - 1).
Proof.
  intros Hrun. split.
  - refine (packNodes_invariant env within_budget _ _ _ _ _ _ _ Hrun).
    + intros pb1 Hlt _ _. exact Hlt.
    + intros Hne. exfalso. apply Hne. reflexivity.
  - intros Hinit.
    assert (runningTxSize pb < maxTxSize); [|lia].
    refine (packNodes_invariant env (fun b => runningTxSize b < maxTxSize)
              _ _ _ _ _ _ _ Hrun); auto.
Qed.

(** With the SDK's compute-budget instruction (no accounts, nine bytes of
    data) the bare envelope is estimated at 178 bytes. *)
Example demo_envelope_size : runningTxSize (initialBatch demo_env) = 178.
Proof. vm_compute. reflexivity. Qed.

Lemma packer_never_exceeds_budget_witness :
  exists pb w',
    packNodes demo_env (initialBatch demo_env) (take 2 demo_candidates)
      demo_world = (Ok pb, w') /\
    nodesSent pb = take 2 demo_candidates /\
    runningTxSize pb < maxTxSize.
Proof.
  eexists _, _. split; [vm_compute; reflexivity|]. split; [reflexivity|].
  refine (proj1 (packer_never_exceeds_budget demo_env demo_candidates 2
                   demo_world _ _ _) _).
  - vm_compute. reflexivity.
  - discriminate.
Defined.

Lemma packNodes_prefix env nodesToFill :
  forall pb0 w pb w',
    packNodes env pb0 nodesToFill w = (Ok pb, w') ->
    exists accepted rest,
      nodesToFill = accepted ++ rest /\
      nodesSent pb = nodesSent pb0 ++ accepted /\
      nodes w' = nodes w /\
      (forall k, (k <= length accepted)%nat ->
         exists pbk wk,
           packNodes env pb0 (take k nodesToFill) w = (Ok pbk, wk) /\
           nodesSent pbk = nodesSent pb0 ++ take k nodesToFill /\
           ((0 < k)%nat -> runningTxSize pbk < maxTxSize)) /\
      match rest with
      | [] => True
      | c :: _ =>
          packNode env pb c w' = (Ok None, w')
      end.
Proof.
  induction nodesToFill as [|c l IH]; intros pb0 w pb w'.
  - intros [= <- <-]. exists [], []. repeat split; [by rewrite app_nil_r|].
    intros k Hk. exists pb0, w. rewrite take_nil, app_nil_r.
    repeat split. simpl in Hk. lia.
  - rewrite packNodes_cons.
    destruct (packNode env pb0 c w) as [[[pb1|]|e] w1] eqn:E; [| |discriminate].
    + intros Hrun. pose proof (packNode_nodes _ _ _ _ _ _ E) as Hn.
      destruct (IH _ _ _ _ Hrun) as (acc & rest & -> & Hsent & Hn' & Hk & Hrest).
      pose proof E as E'.
      apply packNode_accept in E' as (info & ix & Hres & -> & Hlt).
      exists (c :: acc), rest. repeat split.
      * rewrite Hsent. simpl. by rewrite <- app_assoc.
      * congruence.
      * intros [|k] Hle.
        { exists pb0, w. simpl. rewrite app_nil_r. repeat split. lia. }
        simpl in Hle. destruct (Hk k ltac:(lia)) as (pbk & wk & Hpk & Hsk & Hbk).
        exists pbk, wk. rewrite firstn_cons, packNodes_cons, E.
        repeat split; [exact Hpk| |].
        -- rewrite Hsk. simpl. by rewrite <- app_assoc.
        -- intros _. destruct k as [|k].
           ++ rewrite take_0 in Hpk. injection Hpk as <- <-. exact Hlt.
           ++ apply Hbk. lia.
      * exact Hrest.
    + intros [= <- <-]. pose proof E as E'.
      apply packNode_break in E' as [-> _].
      exists [], (c :: l). repeat split; [by rewrite app_nil_r| |exact E].
      intros k Hk. simpl in Hk. assert (k = 0%nat) as -> by lia.
      exists pb0, w. simpl. rewrite app_nil_r. repeat split. lia.
Qed.

(** C3: the candidates the packer accepts are a prefix of the candidates in
    the order offered; after each accepted candidate the cumulative estimated
    size is below the budget; and the prefix is maximal: when a candidate is
    left over, the first one left over is the one for which
    [runningTxSize + newIxCost + additionalAccountsCost >= maxTxSize], and
    nothing after it is accepted, whatever its size. *)
Theorem packer_accepts_maximal_prefix env nodesToFill w pb w' :
  packNodes env (initialBatch env) nodesToFill w = (Ok pb, w') ->
  exists rest,
    nodesToFill = nodesSent pb ++ rest /\
    (forall k, (0 < k <= length (nodesSent pb))%nat ->
       exists pbk wk,
         packNodes env (initialBatch env) (take k nodesToFill) w
           = (Ok pbk, wk) /\
         nodesSent pbk = take k nodesToFill /\
         runningTxSize pbk < maxTxSize) /\
    match rest with
    | [] => True
    | c :: _ =>
        exists info ix,
          resolveFillOrderIx env (nodes w) c = Ok (info, ix) /\
          runningTxSize pb + calcIxEncodedSize ix
            + additionalAccountsCost (newAccountsOf (uniqueAccounts pb) ix)
            >= maxTxSize
    end.
Proof.
  intros Hrun.
  destruct (packNodes_prefix _ _ _ _ _ _ Hrun)
    as (acc & rest & -> & Hsent & Hn & Hk & Hrest).
  simpl in Hsent. subst acc. exists rest. repeat split.
  - intros k [Hpos Hle].
    destruct (Hk k Hle) as (pbk & wk & Hpk & Hsk & Hbk).
    exists pbk, wk. repeat split; auto.
  - destruct rest as [|c rest]; [exact I|].
    apply packNode_break in Hrest as [_ (info & ix & Hres & Hge)].
    exists info, ix. rewrite <- Hn. split; assumption.
Qed.

(** In the demonstration run the third candidate overflows the budget and the
    fourth, which would have fitted, is not looked at. *)
Lemma packer_accepts_maximal_prefix_witness :
  exists pb w',
    packNodes demo_env (initialBatch demo_env) demo_candidates demo_world
      = (Ok pb, w') /\
    nodesSent pb = take 2 demo_candidates /\
    runningTxSize pb + estimatedCost (uniqueAccounts pb) (demo_fillIx "user1" 100)
      < maxTxSize /\
    exists rest, demo_candidates = nodesSent pb ++ rest.
Proof.
  eexists _, _. split; [vm_compute; reflexivity|].
  split; [reflexivity|]. split; [vm_compute; reflexivity|].
  assert (H : packNodes demo_env (initialBatch demo_env) demo_candidates
                demo_world = (Ok _, _)) by (vm_compute; reflexivity).
  destruct (packer_accepts_maximal_prefix _ _ _ _ _ H) as (rest & Hrest & _).
  exists rest. exact Hrest.
Defined.

(** ** Conversions *)

Lemma toNumber_ok z : Z.abs z < 2 ^ 53 -> toNumber z = Ok z.
Proof.
  intros H. unfold toNumber. by destruct (Z.ltb_spec (Z.abs z) (2 ^ 53)); [|lia].
Qed.

(** ** Reasoning about what a computation maintains *)

Lemma bind_keeps {A B} (P : World -> Prop) (c : M A) (k : A -> M B) w :
  P (snd (c w)) ->
  (forall a w', c w = (Ok a, w') -> P w' -> P (snd (k a w'))) ->
  P (snd (bind c k w)).
Proof.
  unfold bind. intros Hc Hk. destruct (c w) as [[a|e] w'] eqn:E; simpl in *.
  - apply Hk; auto.
  - exact Hc.
Qed.

Lemma preserves_bind {A B} P (c : M A) (k : A -> M B) :
  preserves P c -> (forall a, preserves P (k a)) -> preserves P (bind c k).
Proof.
  intros Hc Hk w Hw. apply bind_keeps; [by apply Hc|].
  intros a w' _ Hw'. by apply Hk.
Qed.

Lemma preserves_seq {A B} P (c : M A) (k : M B) :
  preserves P c -> preserves P k -> preserves P (seq c k).
Proof. intros Hc Hk. apply preserves_bind; auto. Qed.

Lemma preserves_get_bind {B} (P : World -> Prop) (k : World -> M B) :
  (forall w, P w -> P (snd (k w w))) -> preserves P (bind get k).
Proof. intros Hk w Hw. unfold bind, get. by apply Hk. Qed.

Lemma preserves_ret {A} P (a : A) : preserves P (ret a).
Proof. intros w Hw. exact Hw. Qed.

Lemma preserves_throw {A} P e : preserves P (@throw A e).
Proof. intros w Hw. exact Hw. Qed.

Lemma preserves_lift {A} P (r : Result A) : preserves P (lift r).
Proof. intros w Hw. exact Hw. Qed.

Lemma preserves_modify P (f : World -> World) :
  (forall w, P w -> P (f w)) -> preserves P (modify f).
Proof. intros Hf w Hw. by apply Hf. Qed.

Lemma preserves_try_catch {A} P (c : M A) h :
  preserves P c -> (forall e, preserves P (h e)) -> preserves P (try_catch c h).
Proof.
  intros Hc Hh w Hw. unfold try_catch. specialize (Hc w Hw).
  destruct (c w) as [[a|e] w']; simpl in *; [exact Hc|]. by apply Hh.
Qed.

Lemma preserves_try_finally {A} P (c : M A) f :
  preserves P c -> preserves P f -> preserves P (try_finally c f).
Proof.
  intros Hc Hf w Hw. unfold try_finally. specialize (Hc w Hw).
  destruct (c w) as [r w']; simpl in *. specialize (Hf w' Hc).
  destruct (f w') as [[u|e] w'']; exact Hf.
Qed.

Lemma preserves_when P b c : preserves P c -> preserves P (when b c).
Proof. intros Hc. destruct b; [exact Hc | apply preserves_ret]. Qed.

Create HintDb pres.

#[local] Hint Resolve preserves_bind preserves_seq preserves_ret preserves_throw
  preserves_lift preserves_try_catch preserves_try_finally preserves_when
  : pres.

Section Preservation.

(** [P] looks at the nodes, the registry and the traces of removals and
    submissions only.  Each further hypothesis lets one kind of write
    through: an eviction, the recording of an attempt under the signature of
    a candidate that has an account, a removal, a submission. *)
Variable P : World -> Prop.
Hypothesis P_frame : forall w w',
  nodes w' = nodes w -> throttledNodes w' = throttledNodes w ->
  dlobRemoved w' = dlobRemoved w -> sentTxs w' = sentTxs w ->
  P w -> P w'.
Hypothesis P_removed : forall l w, P w -> P (with_dlobRemoved l w).
Hypothesis P_sent : forall l w, P w -> P (with_sentTxs l w).
Hypothesis P_delete : forall sig w,
  P w -> P (with_throttledNodes (delete sig (throttledNodes w)) w).
Hypothesis P_set : forall w0 c a now w,
  userAccount (nodes w0 (node c)) = Some a ->
  P w ->
  P (with_throttledNodes
       (<[getNodeToFillSignature w0 c := now]> (throttledNodes w)) w).

Lemma preserves_logger lvl msg : preserves P (logger lvl msg).
Proof. apply preserves_modify. intros w. by apply P_frame. Qed.

Lemma preserves_metric ev : preserves P (metric ev).
Proof. apply preserves_modify. intros w. by apply P_frame. Qed.

Lemma preserves_dateNow env : preserves P (dateNow env).
Proof. intros w. by apply P_frame. Qed.

Lemma preserves_dlob_remove o a : preserves P (dlob_remove o a).
Proof. apply preserves_modify. intros w. apply P_removed. Qed.

Lemma preserves_dlobMutex {A} env site (body : M A) :
  preserves P body -> preserves P (dlobMutex_runExclusive env site body).
Proof.
  intros Hb. unfold dlobMutex_runExclusive.
  destruct (dlobMutex_acquired env site); [exact Hb | apply preserves_throw].
Qed.

Lemma preserves_throttledNodes_delete sig :
  preserves P (throttledNodes_delete sig).
Proof. apply preserves_modify. intros w. apply P_delete. Qed.

Hint Resolve preserves_logger preserves_metric preserves_dateNow
  preserves_dlob_remove preserves_dlobMutex preserves_throttledNodes_delete
  : pres.

Lemma preserves_logEach lvl lines : preserves P (logEach lvl lines).
Proof. induction lines; simpl; auto with pres. Qed.

Lemma preserves_filterFillableNodes env c :
  preserves P (filterFillableNodes env c).
Proof.
  unfold filterFillableNodes. apply preserves_get_bind. intros w Hw.
  destruct (isVammNode _); [exact Hw|].
  destruct (haveFilled _); [exact Hw|].
  destruct (throttledNodes w !! _); [|exact Hw].
  apply bind_keeps; [by apply preserves_dateNow|]. intros now w' _ Hw'.
  destruct (_ >? _); [exact Hw'|].
  apply (preserves_seq P (throttledNodes_delete _) (ret _)); auto with pres.
Qed.

Lemma preserves_waitForTransaction fetch txSig remaining :
  forall attempts,
    preserves P (waitForTransaction fetch txSig remaining attempts).
Proof.
  induction remaining as [|n IH]; intros attempts; simpl; [auto with pres|].
  apply preserves_seq; [auto with pres|].
  apply preserves_bind; [auto with pres|].
  intros [response|]; auto with pres.
Qed.

Lemma logAssocOrder_keeps indent log idx filledNode w :
  P w ->
  P (snd (logAssocOrder indent log idx filledNode w)) /\
  forall c n w',
    logAssocOrder indent log idx filledNode w = (Ok (c, n), w') ->
    n = nodes w' (node c) /\ exists a, userAccount n = Some a.
Proof.
  intros Hw. unfold logAssocOrder, seq, bind, logger, modify, get, lift.
  destruct filledNode as [c|]; simpl.
  - destruct (userAccount _) as [a|] eqn:Ea; simpl.
    + destruct (toNumber _) as [id|e]; simpl.
      * split; [revert Hw; by apply P_frame|].
        intros c' n w' [= <- <- <-]. simpl. split; [reflexivity|]. eauto.
      * split; [revert Hw; by apply P_frame|]. discriminate.
    + split; [revert Hw; by apply P_frame|]. discriminate.
  - split; [revert Hw; by apply P_frame|]. discriminate.
Qed.

Lemma preserves_processFillRecord env nodesFilled st log :
  preserves P (processFillRecord env nodesFilled st log).
Proof.
  intros w Hw. unfold processFillRecord.
  destruct (includes "Order does not exist" log).
  { apply bind_keeps; [by apply logAssocOrder_keeps|].
    intros [c n] w' _ Hw'. apply preserves_seq; auto with pres. }
  destruct (includes "Amm cant fulfill order" log).
  { apply bind_keeps; [by apply logAssocOrder_keeps|].
    intros [c n] w' Hrun Hw'.
    destruct (logAssocOrder_keeps "  " log (ixIdx st)
                (array_get nodesFilled (ixIdx st)) w Hw) as [_ Hn].
    destruct (Hn _ _ _ Hrun) as [-> [a Ha]].
    unfold bind at 1, get. apply bind_keeps; [by apply preserves_dateNow|].
    intros now w'' Hclock Hw''.
    assert (userAccount (nodes w' (node c)) = Some a) as Ha' by exact Ha.
    unfold seq. apply bind_keeps; [|intros; assumption].
    simpl. by eapply P_set. }
  destruct (_ >? _); [exact Hw|].
  apply preserves_seq; auto with pres.
Qed.

Lemma preserves_processLog env nodesFilled txSig st log :
  preserves P (processLog env nodesFilled txSig st log).
Proof.
  unfold processLog. destruct log as [log|]; [|auto with pres].
  destruct (nextIsFillRecord st).
  - apply preserves_bind; [apply preserves_processFillRecord|auto with pres].
  - destruct (isLogFillOrder log); auto with pres.
Qed.

Lemma preserves_processLogs env nodesFilled txSig logs :
  forall st, preserves P (processLogs env nodesFilled txSig st logs).
Proof.
  induction logs as [|log rest IH]; intros st; simpl; [auto with pres|].
  apply preserves_bind; [apply preserves_processLog|auto].
Qed.

Lemma preserves_processBulkFillTxLogs env nodesFilled txSig :
  preserves P (processBulkFillTxLogs env nodesFilled txSig).
Proof.
  unfold processBulkFillTxLogs.
  apply preserves_bind; [apply preserves_waitForTransaction|].
  intros [[[logs|]]|]; simpl; auto with pres.
  apply preserves_bind; [apply preserves_processLogs|auto with pres].
Qed.

Lemma preserves_packNode env pb c : preserves P (packNode env pb c).
Proof.
  intros w Hw. rewrite packNode_unfold.
  destruct (resolveFillOrderIx _ _ _) as [[info ix]|e]; [|exact Hw].
  destruct (_ >=? _); [exact Hw|]. revert Hw. by apply P_frame.
Qed.

Lemma preserves_packNodes env nodesToFill :
  forall pb, preserves P (packNodes env pb nodesToFill).
Proof.
  induction nodesToFill as [|c rest IH]; intros pb; simpl; [auto with pres|].
  apply preserves_bind; [apply preserves_packNode|].
  intros [pb'|]; auto with pres.
Qed.

Lemma preserves_tryBulkFillNodes_catch e :
  preserves P (tryBulkFillNodes_catch e).
Proof.
  unfold tryBulkFillNodes_catch.
  destruct (error_logs e); auto 6 using preserves_logEach with pres.
Qed.

Lemma preserves_tryBulkFillNodes env nodesToFill :
  preserves P (tryBulkFillNodes env nodesToFill).
Proof.
  unfold tryBulkFillNodes.
  apply preserves_bind; [apply preserves_packNodes|]. intros pb.
  apply preserves_seq; [auto with pres|].
  destruct (Nat.eqb _ _); [auto with pres|].
  apply preserves_seq; [auto with pres|].
  apply preserves_try_catch; [|apply preserves_tryBulkFillNodes_catch].
  apply preserves_seq.
  { apply preserves_modify. intros w. apply P_sent. }
  apply preserves_bind; [auto with pres|]. intros txSig.
  do 2 (apply preserves_seq; [solve [auto with pres]|]).
  apply preserves_seq; [apply preserves_processBulkFillTxLogs|].
  auto 7 with pres.
Qed.

Lemma preserves_getFillableNodesForMarket env market :
  preserves P (getFillableNodesForMarket env market).
Proof.
  unfold getFillableNodesForMarket.
  apply preserves_bind; [auto with pres|]. intros [[vBid vAsk] oracle].
  auto with pres.
Qed.

Lemma preserves_collectFillableNodes env markets :
  forall acc, preserves P (collectFillableNodes env acc markets).
Proof.
  induction markets as [|m rest IH]; intros acc; simpl; [auto with pres|].
  apply preserves_bind; [apply preserves_getFillableNodesForMarket|auto].
Qed.

Lemma preserves_filterNodes env l : preserves P (filterNodes env l).
Proof.
  induction l as [|c rest IH]; simpl; [auto with pres|].
  apply preserves_bind; [apply preserves_filterFillableNodes|].
  intros keep. auto with pres.
Qed.

Lemma preserves_promiseTimeout {A} env (p : M A) :
  preserves P p -> preserves P (promiseTimeout env p).
Proof.
  intros Hp. unfold promiseTimeout.
  destruct (promiseTimeout_expired env); [|auto with pres].
  intros w Hw. simpl. by apply Hp.
Qed.

Lemma preserves_tryFill_body env : preserves P (tryFill_body env).
Proof.
  unfold tryFill_body. apply preserves_seq.
  { apply preserves_dlobMutex. apply preserves_seq; [|auto with pres].
    apply preserves_modify. intros w. by apply P_frame. }
  apply preserves_bind; [apply preserves_collectFillableNodes|]. intros l.
  apply preserves_bind; [apply preserves_filterNodes|]. intros l'.
  apply preserves_seq; [auto with pres|].
  apply preserves_bind.
  { apply preserves_promiseTimeout, preserves_tryBulkFillNodes. }
  intros [r|]; auto with pres.
Qed.

Lemma preserves_tryAcquire_runExclusive {A} (body : M A) :
  preserves P body -> preserves P (tryAcquire_runExclusive body).
Proof.
  intros Hb. unfold tryAcquire_runExclusive. apply preserves_get_bind.
  intros w Hw. destruct (periodicTaskMutex w); [exact Hw|].
  revert w Hw. apply preserves_seq.
  { apply preserves_modify. intros w. by apply P_frame. }
  apply preserves_try_finally; [exact Hb|].
  apply preserves_modify. intros w. by apply P_frame.
Qed.

Lemma preserves_tryFill env : preserves P (tryFill env).
Proof.
  unfold tryFill. apply preserves_bind.
  - apply preserves_try_catch.
    + apply preserves_seq; [|auto with pres].
      apply preserves_tryAcquire_runExclusive, preserves_tryFill_body.
    + intros e. apply preserves_seq; [|auto with pres].
      destruct e; simpl; auto with pres.
  - intros ran. auto with pres.
Qed.

End Preservation.

(** ** Throttle registry *)

Lemma real_signature_not_sentinel (account rest : string) :
  account +:+ "-" +:+ rest <> "~".
Proof.
  destruct account as [|ch [|ch' account]]; simpl; discriminate.
Qed.

Lemma signature_sentinel_iff w c :
  getNodeToFillSignature w c = "~" <-> userAccount (nodes w (node c)) = None.
Proof.
  unfold getNodeToFillSignature.
  destruct (userAccount (nodes w (node c))) as [a|]; split; try done.
  intros H. by apply real_signature_not_sentinel in H.
Qed.

Lemma sentinel_free_frame w w' :
  nodes w' = nodes w -> throttledNodes w' = throttledNodes w ->
  dlobRemoved w' = dlobRemoved w -> sentTxs w' = sentTxs w ->
  sentinel_free w -> sentinel_free w'.
Proof. unfold sentinel_free. intros _ -> _ _. done. Qed.

Lemma sentinel_free_removed l w :
  sentinel_free w -> sentinel_free (with_dlobRemoved l w).
Proof. done. Qed.

Lemma sentinel_free_sent l w :
  sentinel_free w -> sentinel_free (with_sentTxs l w).
Proof. done. Qed.

Lemma sentinel_free_delete sig w :
  sentinel_free w ->
  sentinel_free (with_throttledNodes (delete sig (throttledNodes w)) w).
Proof.
  unfold sentinel_free. simpl. intros H. apply lookup_delete_None. by right.
Qed.

Lemma sentinel_free_set w0 c a now w :
  userAccount (nodes w0 (node c)) = Some a ->
  sentinel_free w ->
  sentinel_free
    (with_throttledNodes
       (<[getNodeToFillSignature w0 c := now]> (throttledNodes w)) w).
Proof.
  unfold sentinel_free, getNodeToFillSignature. simpl. intros -> H.
  rewrite lookup_insert_ne; [exact H|]. apply real_signature_not_sentinel.
Qed.

Lemma with_account_frame c a w w' :
  nodes w' = nodes w -> throttledNodes w' = throttledNodes w ->
  dlobRemoved w' = dlobRemoved w -> sentTxs w' = sentTxs w ->
  sentinel_free_with_account c a w -> sentinel_free_with_account c a w'.
Proof.
  unfold sentinel_free_with_account, sentinel_free. intros -> -> _ _. done.
Qed.

Lemma with_account_removed c a l w :
  sentinel_free_with_account c a w ->
  sentinel_free_with_account c a (with_dlobRemoved l w).
Proof. done. Qed.

Lemma with_account_delete c a sig w :
  sentinel_free_with_account c a w ->
  sentinel_free_with_account c a
    (with_throttledNodes (delete sig (throttledNodes w)) w).
Proof.
  intros [H1 H2]. split; [by apply sentinel_free_delete | exact H2].
Qed.

Lemma with_account_set c a w0 c' a' now w :
  userAccount (nodes w0 (node c')) = Some a' ->
  sentinel_free_with_account c a w ->
  sentinel_free_with_account c a
    (with_throttledNodes
       (<[getNodeToFillSignature w0 c' := now]> (throttledNodes w)) w).
Proof.
  intros Ha [H1 H2]. split; [by eapply sentinel_free_set | exact H2].
Qed.

Lemma tryFillNode_catch_sentinel env c a e :
  preserves (sentinel_free_with_account c a) (tryFillNode_catch env c e).
Proof.
  pose proof (with_account_frame c a) as Hframe.
  unfold tryFillNode_catch. apply preserves_seq.
  { apply preserves_modify. intros w [H1 H2]. split; [exact H1|].
    simpl. by rewrite Nat.eqb_refl. }
  apply preserves_get_bind. intros w Hw.
  apply bind_keeps; [by apply preserves_dateNow|]. intros now w1 _ Hw1.
  unfold seq at 1. apply bind_keeps.
  { simpl. apply with_account_set with (a' := a); [apply Hw | exact Hw1]. }
  intros _ w2 _ Hw2.
  apply preserves_seq; [by apply preserves_metric| |exact Hw2].
  apply preserves_seq.
  { destruct (String.eqb _ _); [|apply preserves_ret].
    apply preserves_dlobMutex. apply preserves_dlob_remove.
    apply with_account_removed. }
  apply preserves_bind; [apply preserves_lift|]. intros account.
  apply preserves_bind; [apply preserves_lift|]. intros mktIdx.
  apply preserves_seq; [by apply preserves_logger | apply preserves_ret].
Qed.

Lemma tryFillNode_fill_sentinel env c a nodeOf account :
  preserves (sentinel_free_with_account c a)
    (tryFillNode_fill env c nodeOf account).
Proof.
  pose proof (with_account_frame c a) as Hframe.
  unfold tryFillNode_fill.
  apply preserves_seq; [by apply preserves_logger|].
  apply preserves_bind; [apply preserves_lift|]. intros info.
  destruct (dryRun env).
  { apply preserves_seq; [by apply preserves_logger | apply preserves_ret]. }
  apply preserves_try_finally; [|by apply preserves_metric].
  apply preserves_try_catch; [|intros e; apply tryFillNode_catch_sentinel].
  unfold tryFillNode_try.
  apply preserves_seq; [by apply preserves_metric|].
  apply preserves_seq.
  { apply preserves_modify. intros w0. by apply Hframe. }
  apply preserves_bind; [apply preserves_lift|]. intros txSig.
  apply preserves_seq; [by apply preserves_metric|].
  apply preserves_seq; [by apply preserves_logger | apply preserves_ret].
Qed.

Lemma tryFillNode_sentinel_free env nodeToFill :
  preserves sentinel_free (tryFillNode env nodeToFill).
Proof.
  pose proof sentinel_free_frame as Hframe.
  destruct nodeToFill as [c|]; simpl.
  2:{ apply preserves_seq; [by apply preserves_logger | apply preserves_ret]. }
  apply preserves_get_bind. intros w Hw.
  destruct (userAccount (nodes w (node c))) as [a|] eqn:Ea; [|exact Hw].
  unfold bind, lift. simpl toString. cbv iota beta.
  by apply (tryFillNode_fill_sentinel env c a (nodes w) a w).
Qed.

(** The filter in closed form. *)
Lemma filterFillableNodes_unfold env c w :
  filterFillableNodes env c w =
  let n := nodes w (node c) in
  let sig := getNodeToFillSignature w c in
  if isVammNode n then (Ok false, w)
  else if haveFilled n then (Ok false, w)
  else match throttledNodes w !! sig with
       | Some lastFillAttempt =>
           let w1 := with_clockReads (S (clockReads w)) w in
           if lastFillAttempt + FILL_ORDER_BACKOFF env
              >? Date_now env (clockReads w)
           then (Ok false, w1)
           else (Ok (vammCheck env w c),
                 with_throttledNodes (delete sig (throttledNodes w)) w1)
       | None => (Ok (vammCheck env w c), w)
       end.
Proof.
  unfold filterFillableNodes, bind, get. cbv zeta.
  destruct (isVammNode _); [reflexivity|].
  destruct (haveFilled _); [reflexivity|].
  destruct (throttledNodes w !! _); [|reflexivity].
  unfold dateNow. destruct (_ >? _); reflexivity.
Qed.

(** A failed single-candidate fill records the attempt under the candidate's
    signature, stamped with the clock reading taken in the [catch]. *)
Lemma tryFillNode_catch_records env c e w :
  exists w',
    snd (tryFillNode_catch env c e w) = w' /\
    throttledNodes w' =
      <[getNodeToFillSignature w c := Date_now env (clockReads w)]>
        (throttledNodes w).
Proof.
  eexists. split; [reflexivity|].
  unfold tryFillNode_catch, seq, bind, get, write_haveFilled, modify, dateNow,
    throttledNodes_set, metric, dlobMutex_runExclusive, dlob_remove, lift,
    logger, ret, throw.
  simpl. rewrite Nat.eqb_refl. simpl.
  assert (Hsig : forall w1,
            nodes w1 = (fun r' => if Nat.eqb r' (node c)
                                  then set_haveFilled false (nodes w r')
                                  else nodes w r') ->
            getNodeToFillSignature w1 c = getNodeToFillSignature w c).
  { intros w1 H. unfold getNodeToFillSignature. rewrite H, Nat.eqb_refl.
    reflexivity. }
  rewrite Hsig by reflexivity.
  destruct (String.eqb _ _); [destruct (dlobMutex_acquired _ _)|];
    simpl; destruct (userAccount (nodes w (node c))); simpl;
    try destruct (toNumber _); reflexivity.
Qed.

(** C5: once the registry holds an attempt on signature [s] recorded at time
    [t], a lookup made at time [t'] with backoff window [W] rejects the
    candidate when [t' < t + W] (in particular on [t <= t' < t + W]) and
    leaves the entry in place; when [t' >= t + W] the candidate is not
    throttled: the lookup evicts the entry and the verdict is that of the
    remaining check. *)
Theorem throttle_backoff_window env c w (t t' : Z) :
  throttledNodes w !! getNodeToFillSignature w c = Some t ->
  Date_now env (clockReads w) = t' ->
  (t' < t + FILL_ORDER_BACKOFF env ->
     exists w',
       filterFillableNodes env c w = (Ok false, w') /\
       throttledNodes w' = throttledNodes w) /\
  (t + FILL_ORDER_BACKOFF env <= t' ->
   isVammNode (nodes w (node c)) = false ->
   haveFilled (nodes w (node c)) = false ->
     exists w',
       filterFillableNodes env c w = (Ok (vammCheck env w c), w') /\
       throttledNodes w' =
         delete (getNodeToFillSignature w c) (throttledNodes w) /\
       throttledNodes w' !! getNodeToFillSignature w c = None).
Proof.
  intros Hentry Hnow. rewrite filterFillableNodes_unfold. cbv zeta.
  rewrite Hentry, Hnow. split.
  - intros Hlt.
    destruct (isVammNode _); [eauto|]. destruct (haveFilled _); [eauto|].
    destruct (Z.gtb_spec (t + FILL_ORDER_BACKOFF env) t'); [|lia].
    eexists. split; reflexivity.
  - intros Hge -> ->.
    destruct (Z.gtb_spec (t + FILL_ORDER_BACKOFF env) t'); [lia|].
    eexists. split; [reflexivity|]. simpl. split; [reflexivity|].
    apply lookup_delete_eq.
Qed.

Lemma throttle_backoff_window_witness :
  (exists w',
     filterFillableNodes demo_env (mkNodeToFill 1%nat None)
       (demo_throttled_world 3) = (Ok false, w') /\
     throttledNodes w' = throttledNodes (demo_throttled_world 3)) /\
  (exists w',
     filterFillableNodes demo_env (mkNodeToFill 1%nat None)
       (demo_throttled_world 5) = (Ok true, w') /\
     throttledNodes w' = delete "user1-100" {[ "user1-100" := 0 ]} /\
     throttledNodes w' !! "user1-100" = None).
Proof.
  split.
  - apply (proj1 (throttle_backoff_window demo_env (mkNodeToFill 1%nat None)
                    (demo_throttled_world 3) 0 3000 eq_refl eq_refl)).
    vm_compute. reflexivity.
  - apply (proj2 (throttle_backoff_window demo_env (mkNodeToFill 1%nat None)
                    (demo_throttled_world 5) 0 5000 eq_refl eq_refl)).
    + vm_compute. discriminate.
    + reflexivity.
    + reflexivity.
Defined.

Lemma reachable_sentinel_free w : reachable w -> sentinel_free w.
Proof.
  induction 1 as [w Hnew|env call w Hr IH|f w Hr IH].
  - unfold sentinel_free. rewrite Hnew. apply lookup_empty.
  - pose proof sentinel_free_frame. pose proof sentinel_free_delete.
    pose proof sentinel_free_set. pose proof sentinel_free_removed.
    pose proof sentinel_free_sent.
    destruct call; simpl.
    + apply preserves_tryFill; assumption.
    + by apply tryFillNode_sentinel_free.
    + apply preserves_tryBulkFillNodes; assumption.
    + apply preserves_processBulkFillTxLogs; assumption.
    + apply preserves_filterFillableNodes; assumption.
  - exact IH.
Qed.

(** C6: in every world the bot can reach, the registry has no entry under the
    sentinel signature.  So a candidate without an account reference, whose
    signature is the sentinel, is never stopped by the throttle check of the
    filter: once past the two flag checks its verdict is that of the last
    check and the world is untouched.  A fill attempt on such a candidate
    fails on the missing account before anything is recorded, so earlier
    attempts on sentinel candidates leave no trace in the registry. *)
Theorem sentinel_never_throttled w :
  reachable w ->
  throttledNodes w !! "~" = None /\
  forall env c,
    userAccount (nodes w (node c)) = None ->
    getNodeToFillSignature w c = "~" /\
    (isVammNode (nodes w (node c)) = false ->
     haveFilled (nodes w (node c)) = false ->
     filterFillableNodes env c w = (Ok (vammCheck env w c), w)) /\
    (exists msg, tryFillNode env (Some c) w = (Throw (TypeError msg), w)).
Proof.
  intros Hr. pose proof (reachable_sentinel_free w Hr) as Hfree.
  split; [exact Hfree|]. intros env c Hacc.
  assert (Hsig : getNodeToFillSignature w c = "~")
    by (by apply signature_sentinel_iff).
  split; [exact Hsig|]. split.
  - intros Hv Hf. rewrite filterFillableNodes_unfold. cbv zeta.
    rewrite Hv, Hf, Hsig. unfold sentinel_free in Hfree. by rewrite Hfree.
  - unfold tryFillNode, bind, get, lift. rewrite Hacc. simpl. eauto.
Qed.

Lemma sentinel_never_throttled_witness :
  let w := run demo_env (CallTryFillNode (Some demo_sentinel_candidate))
             demo_sentinel_world in
  throttledNodes w !! "~" = None /\
  getNodeToFillSignature w demo_sentinel_candidate = "~" /\
  filterFillableNodes demo_env demo_sentinel_candidate w = (Ok true, w).
Proof.
  cbv zeta.
  assert (Hr : reachable (run demo_env
                            (CallTryFillNode (Some demo_sentinel_candidate))
                            demo_sentinel_world)).
  { apply reachable_call, reachable_new. reflexivity. }
  destruct (sentinel_never_throttled _ Hr) as [Hfree Hc].
  destruct (Hc demo_env demo_sentinel_candidate eq_refl) as (Hsig & Hfilter & _).
  split; [exact Hfree|]. split; [exact Hsig|].
  exact (Hfilter eq_refl eq_refl).
Defined.

(** ** Reconciliation *)

(** The polling loop finds the record on fetch [j] when the earlier fetches
    answer [null]; it only logs. *)
Lemma waitForTransaction_found fetch txSig response (j : nat) :
  forall remaining attempts w,
    (j < remaining)%nat ->
    (forall i, (i < j)%nat -> fetch (attempts + i)%nat = Ok None) ->
    fetch (attempts + j)%nat = Ok (Some response) ->
    exists l,
      waitForTransaction fetch txSig remaining attempts w =
        (Ok (Some response), with_logged (logged w ++ l) w).
Proof.
  induction j as [|j IH]; intros remaining attempts w Hlt Hnull Hfound.
  - destruct remaining as [|remaining]; [lia|]. cbn [waitForTransaction].
    mstep. rewrite Nat.add_0_r in Hfound. rewrite Hfound. eauto.
  - destruct remaining as [|remaining]; [lia|]. cbn [waitForTransaction].
    mstep. pose proof (Hnull 0%nat ltac:(lia)) as H0. rewrite Nat.add_0_r in H0.
    rewrite H0.
    destruct (IH remaining (S attempts)
                (with_logged
                   (logged w ++
                    [(Info, "waiting for " +:+ txSig +:+ " to be confirmed")]) w))
      as [l Hl].
    + lia.
    + intros i Hi. rewrite <- (Hnull (S i) ltac:(lia)). f_equal. lia.
    + rewrite <- Hfound. f_equal. lia.
    + rewrite Hl. world_simpl. rewrite <- app_assoc. eauto.
Qed.

(** C4 (the code at the failing input): the three candidates and the three
    outcome lines of the claim, where the order of the first candidate has
    the id 2^53.  The line that logs the order of a failed fill converts the
    id with [toNumber], which throws: reconciliation stops there, having
    issued no removal, recorded no attempt and reported no success count. *)
Theorem reconciliation_stops_at_large_order_id :
  let r := processBulkFillTxLogs demo_env (take 3 demo_candidates) "sig"
             demo_large_id_world in
  fst r = Throw (OtherError "Number can only safely store up to 53 bits") /\
  dlobRemoved (snd r) = [] /\
  throttledNodes (snd r) = ∅ /\
  metrics (snd r) = Some [].
Proof. vm_compute. repeat split. Qed.

(** X23: when the order ids of the candidates named in failure lines fit in
    53 bits, outcomes are attributed by packing order.  For three packed
    candidates and an outcome record whose lines are a fill marker followed
    by a line containing "Order does not exist", a fill marker followed by a
    line containing "Amm cant fulfill order" (and not the first pattern,
    which is tested first), and a fill marker followed by a line of 60
    characters containing neither, reconciliation issues exactly one
    order-book removal, for the first candidate; records exactly one attempt
    in the registry, under the signature of the second; reports a success
    count of one; and touches nothing else.  A line after a marker that
    matches no pattern and is at most 50 characters long is logged and
    changes neither the registry, nor the removals, nor the count. *)
Theorem reconciliation_attributes_by_packing_order
    env c1 c2 c3 l1 l2 l3 a1 a2 txSig w :
  Z.abs (orderId (order (nodes w (node c1)))) < 2 ^ 53 ->
  Z.abs (orderId (order (nodes w (node c2)))) < 2 ^ 53 ->
  includes "Order does not exist" l1 = true ->
  includes "Order does not exist" l2 = false ->
  includes "Amm cant fulfill order" l2 = true ->
  includes "Order does not exist" l3 = false ->
  includes "Amm cant fulfill order" l3 = false ->
  String.length l3 = 60%nat ->
  userAccount (nodes w (node c1)) = Some a1 ->
  userAccount (nodes w (node c2)) = Some a2 ->
  dlobMutex_acquired env (AtRemove (order (nodes w (node c1))) (Some a1))
    = true ->
  forall j : nat,
  (j < 10)%nat ->
  (forall i, (i < j)%nat -> getTransaction env txSig i = Ok None) ->
  getTransaction env txSig j
    = Ok (Some (mkTxResponse
                  (Some [Some FillMarker; Some l1; Some FillMarker; Some l2;
                         Some FillMarker; Some l3]))) ->
  (exists w',
     processBulkFillTxLogs env [c1; c2; c3] txSig w = (Ok tt, w') /\
     dlobRemoved w' = dlobRemoved w ++ [(order (nodes w (node c1)), Some a1)] /\
     throttledNodes w' =
       <[getNodeToFillSignature w c2 := Date_now env (clockReads w)]>
         (throttledNodes w) /\
     metrics w' =
       option_map (fun l => l ++ [RecordFilledOrder (Some 1)]) (metrics w) /\
     nodes w' = nodes w) /\
  (forall nodesFilled st log w0,
     includes "Order does not exist" log = false ->
     includes "Amm cant fulfill order" log = false ->
     (String.length log <= 50)%nat ->
     exists w0',
       processFillRecord env nodesFilled st log w0 = (Ok st, w0') /\
       throttledNodes w0' = throttledNodes w0 /\
       dlobRemoved w0' = dlobRemoved w0 /\
       nodes w0' = nodes w0 /\
       logged w0' = logged w0 ++ [(Info, " how parse log?: " +:+ log)]).
Proof.
  intros Hid1 Hid2 H1 H2a H2 H3a H3b H3 Ha1 Ha2 Hlock j Hj Hnull Hfetch.
  split.
  - unfold processBulkFillTxLogs.
    destruct (waitForTransaction_found (getTransaction env txSig) txSig _ j
                10%nat 0%nat w Hj Hnull Hfetch) as [l Hl].
    unfold bind at 1. rewrite Hl. world_simpl. cbn [processLogs].
    (* first marker and its outcome line *)
    unfold processLog at 1. mstep.
    change (isLogFillOrder FillMarker) with true. cbv iota. mstep.
    unfold processLog at 1. mstep. unfold processFillRecord at 1. rewrite H1.
    unfold logAssocOrder. mstep.
    change (array_get [c1; c2; c3] (-1 + 1)) with (Some c1). cbv iota. mstep.
    rewrite Ha1, (toNumber_ok _ Hid1). cbn [toString]. mstep.
    rewrite Ha1, Hlock. mstep.
    (* second *)
    unfold processLog at 1. mstep.
    change (isLogFillOrder FillMarker) with true. cbv iota. mstep.
    unfold processLog at 1. mstep. unfold processFillRecord at 1.
    rewrite H2a, H2. unfold logAssocOrder. mstep.
    change (array_get [c1; c2; c3] (-1 + 1 + 1)) with (Some c2). cbv iota.
    mstep. rewrite Ha2, (toNumber_ok _ Hid2). cbn [toString]. mstep.
    (* third *)
    unfold processLog at 1. mstep.
    change (isLogFillOrder FillMarker) with true. cbv iota. mstep.
    unfold processLog at 1. mstep. unfold processFillRecord at 1.
    rewrite H3a, H3b, H3. change (Z.of_nat 60 >? 50) with true. cbv iota.
    mstep.
    eexists. split; [reflexivity|]. repeat split.
  - intros nodesFilled st log w0 Ha Hb Hlen. unfold processFillRecord.
    rewrite Ha, Hb.
    destruct (Z.gtb_spec (Z.of_nat (String.length log)) 50); [lia|].
    mstep. eexists. split; [reflexivity|]. repeat split.
Qed.

Lemma reconciliation_attributes_by_packing_order_witness :
  exists w',
    processBulkFillTxLogs demo_env (take 3 demo_candidates) "sig" demo_world
      = (Ok tt, w') /\
    dlobRemoved w' = [(mkOrder 100, Some "user1")] /\
    throttledNodes w' = {[ "user2-200" := 0 ]} /\
    metrics w' = Some [RecordFilledOrder (Some 1)].
Proof.
  destruct (reconciliation_attributes_by_packing_order demo_env
              (mkNodeToFill 1%nat None) (mkNodeToFill 2%nat None)
              (mkNodeToFill 3%nat None)
              "Program log: Order does not exist"
              "Program log: Amm cant fulfill order"
              "Program data: AAAAAAAAAAAAAAAAAAAAAAAAAAAAAAAAAAAAAAAAAAAAAA"
              "user1" "user2" "sig" demo_world
              eq_refl eq_refl
              eq_refl eq_refl eq_refl eq_refl eq_refl eq_refl
              eq_refl eq_refl eq_refl 2%nat)
    as [(w' & Hrun & Hrem & Hthr & Hmet & _) _].
  - lia.
  - intros [|[|i]] Hi; [reflexivity|reflexivity|lia].
  - reflexivity.
  - exists w'. split; [exact Hrun|]. split; [exact Hrem|].
    split; [|exact Hmet]. rewrite Hthr. vm_compute. reflexivity.
Defined.

(** ** The [haveFilled] flag *)

Lemma nodes_frame (f : NodeRef -> DLOBNode) w w' :
  nodes w' = nodes w -> throttledNodes w' = throttledNodes w ->
  dlobRemoved w' = dlobRemoved w -> sentTxs w' = sentTxs w ->
  nodes w = f -> nodes w' = f.
Proof. congruence. Qed.

(** Everything but the single-candidate path leaves the nodes alone. *)
Lemma run_nodes env call w :
  (forall c, call <> CallTryFillNode c) -> nodes (run env call w) = nodes w.
Proof.
  intros Hcall. pose proof (nodes_frame (nodes w)) as Hf.
  set (P := fun w' : World => nodes w' = nodes w).
  assert (Hd : forall sig w0, P w0 ->
            P (with_throttledNodes (delete sig (throttledNodes w0)) w0)) by done.
  assert (Hs : forall w0 c a now w1,
            userAccount (nodes w0 (node c)) = Some a -> P w1 ->
            P (with_throttledNodes
                 (<[getNodeToFillSignature w0 c := now]> (throttledNodes w1)) w1))
    by done.
  assert (Hr : forall l w0, P w0 -> P (with_dlobRemoved l w0)) by done.
  assert (Ht : forall l w0, P w0 -> P (with_sentTxs l w0)) by done.
  destruct call; simpl.
  - by apply (preserves_tryFill P).
  - by destruct (Hcall nodeToFill).
  - by apply (preserves_tryBulkFillNodes P).
  - by apply (preserves_processBulkFillTxLogs P).
  - by apply (preserves_filterFillableNodes P).
Qed.

(** The [catch] of the single-candidate path clears the flag of the
    candidate's node and writes no other node. *)
Lemma tryFillNode_catch_nodes env c e w :
  nodes (snd (tryFillNode_catch env c e w)) = mark_unfilled (node c) (nodes w).
Proof.
  unfold tryFillNode_catch, write_haveFilled. mstep.
  destruct (String.eqb _ _); [destruct (dlobMutex_acquired _ _)|];
    mstep; rewrite ?Nat.eqb_refl; cbn [userAccount set_haveFilled];
    destruct (userAccount (nodes w (node c))); cbn [toString];
    try destruct (toNumber _); reflexivity.
Qed.

(** The single-candidate path writes the nodes in one case only: it is not a
    dry run, the candidate resolved, and the submission threw. *)
Lemma tryFillNode_nodes env c w :
  nodes (snd (tryFillNode env (Some c) w)) = nodes w \/
  (dryRun env = false /\
   (exists a info e,
      userAccount (nodes w (node c)) = Some a /\
      getNodeFillInfo env (nodes w) c = Ok info /\
      fillOrder env a (order (nodes w (node c)))
        (makerInfo info) (referrerInfo info) = Throw e) /\
   nodes (snd (tryFillNode env (Some c) w)) = mark_unfilled (node c) (nodes w)).
Proof.
  unfold tryFillNode. mstep.
  destruct (userAccount (nodes w (node c))) as [a|] eqn:Ea;
    cbn [toString]; [|by left].
  unfold tryFillNode_fill. mstep.
  destruct (getNodeFillInfo env (nodes w) c) as [info|e] eqn:Ei; [|by left].
  destruct (dryRun env) eqn:Ed; [by left|].
  unfold try_finally, try_catch, tryFillNode_try. mstep.
  destruct (fillOrder env a _ _ _) as [txSig|e] eqn:Ef; [by left|].
  right. split; [reflexivity|]. split; [by exists a, info, e|].
  match goal with
  | |- context [tryFillNode_catch env c e ?w1] =>
      pose proof (tryFillNode_catch_nodes env c e w1) as Hc;
      destruct (tryFillNode_catch env c e w1) as [r w2]
  end.
  simpl in Hc. world_simpl. destruct r; exact Hc.
Qed.

(** C9 (as stated, refuted): a failed single-candidate fill writes the flag of
    a candidate the order book had marked as filled. *)
Lemma filled_flag_counterexample :
  let c := mkNodeToFill 1%nat None in
  let w' := run demo_env (CallTryFillNode (Some c)) demo_filled_world in
  haveFilled (nodes demo_filled_world (node c)) = true /\
  haveFilled (nodes w' (node c)) = false.
Proof. vm_compute. split; reflexivity. Qed.

(** C9 (amended): the bot writes a candidate's [haveFilled] flag in one place
    only.  Filtering, packing, batched submission, reconciliation and the
    whole cycle leave every node as it was.  The single-candidate fallback
    leaves every node as it was on a dry run, on an unresolved candidate and
    on a successful submission; when its submission throws it resets the flag
    of that candidate's node to false and writes nothing else. *)
Theorem filled_flag_written_only_by_failed_fallback env w :
  (forall call, (forall c, call <> CallTryFillNode c) ->
     nodes (run env call w) = nodes w) /\
  nodes (run env (CallTryFillNode None) w) = nodes w /\
  (forall c,
     nodes (run env (CallTryFillNode (Some c)) w) = nodes w \/
     (dryRun env = false /\
      (exists a info e,
         userAccount (nodes w (node c)) = Some a /\
         getNodeFillInfo env (nodes w) c = Ok info /\
         fillOrder env a (order (nodes w (node c)))
           (makerInfo info) (referrerInfo info) = Throw e) /\
      nodes (run env (CallTryFillNode (Some c)) w)
        = mark_unfilled (node c) (nodes w))).
Proof.
  split; [intros call; apply run_nodes|]. split; [reflexivity|].
  intros c. apply tryFillNode_nodes.
Qed.

Lemma filled_flag_written_only_by_failed_fallback_witness :
  nodes (run demo_env (CallTryBulkFillNodes demo_candidates) demo_filled_world)
    = nodes demo_filled_world.
Proof.
  apply (proj1 (filled_flag_written_only_by_failed_fallback demo_env
                  demo_filled_world)
           (CallTryBulkFillNodes demo_candidates)).
  intros c. discriminate.
Defined.

(** ** The dry-run flag *)

Lemma bind_ext {A B} (c : M A) (k1 k2 : A -> M B) w :
  (forall a w', k1 a w' = k2 a w') -> bind c k1 w = bind c k2 w.
Proof.
  intros H. unfold bind. destruct (c w) as [[a|e] w']; [apply H|reflexivity].
Qed.

Lemma try_catch_ext {A} (c1 c2 : M A) h w :
  c1 w = c2 w -> try_catch c1 h w = try_catch c2 h w.
Proof. intros H. unfold try_catch. by rewrite H. Qed.

Lemma try_catch_modify {A} f (c : M A) h w :
  try_catch (modify f >> c) h w = try_catch c h (f w).
Proof. reflexivity. Qed.

Lemma packNodes_dryRun b env nodesToFill :
  forall pb w,
    packNodes (with_dryRun b env) pb nodesToFill w
    = packNodes env pb nodesToFill w.
Proof.
  induction nodesToFill as [|c rest IH]; intros pb w; [reflexivity|].
  rewrite !packNodes_cons.
  change (packNode (with_dryRun b env) pb c w) with (packNode env pb c w).
  destruct (packNode env pb c w) as [[[pb'|]|e] w']; auto.
Qed.

Lemma processLogs_dryRun b env nodesFilled txSig logs :
  forall st w,
    processLogs (with_dryRun b env) nodesFilled txSig st logs w
    = processLogs env nodesFilled txSig st logs w.
Proof.
  induction logs as [|log rest IH]; intros st w; [reflexivity|].
  cbn [processLogs]. unfold bind.
  change (processLog (with_dryRun b env) nodesFilled txSig st log w)
    with (processLog env nodesFilled txSig st log w).
  destruct (processLog env nodesFilled txSig st log w) as [[st'|e] w'];
    auto.
Qed.

Lemma processBulkFillTxLogs_dryRun b env nodesFilled txSig w :
  processBulkFillTxLogs (with_dryRun b env) nodesFilled txSig w
  = processBulkFillTxLogs env nodesFilled txSig w.
Proof.
  unfold processBulkFillTxLogs.
  change (getTransaction (with_dryRun b env) txSig)
    with (getTransaction env txSig).
  apply bind_ext. intros [[[logs|]]|] w'; try reflexivity.
  cbn [logMessages]. unfold bind. rewrite processLogs_dryRun. reflexivity.
Qed.

Lemma tryBulkFillNodes_dryRun b env nodesToFill w :
  tryBulkFillNodes (with_dryRun b env) nodesToFill w
  = tryBulkFillNodes env nodesToFill w.
Proof.
  unfold tryBulkFillNodes.
  change (initialBatch (with_dryRun b env)) with (initialBatch env).
  unfold bind at 1 3. rewrite packNodes_dryRun.
  destruct (packNodes env (initialBatch env) nodesToFill w) as [[pb|e] w1];
    [|reflexivity].
  unfold seq at 1 4. apply bind_ext. intros _ w2.
  destruct (Nat.eqb _ _); [reflexivity|].
  unfold seq at 1 9. apply bind_ext. intros _ w3.
  apply try_catch_ext.
  unfold seq at 1 8. apply bind_ext. intros _ w4.
  change (txSender_send (with_dryRun b env)) with (txSender_send env).
  apply bind_ext. intros txSig w5.
  unfold seq at 1 7. apply bind_ext. intros _ w6.
  unfold seq at 1 6. apply bind_ext. intros _ w7.
  unfold seq at 1 5. unfold bind at 1 5.
  rewrite processBulkFillTxLogs_dryRun. reflexivity.
Qed.

(** The batched submission hands its transaction to the sender exactly once
    whenever the packed batch is not empty, whatever the sender answers. *)
Lemma tryBulkFillNodes_sends env nodesToFill w pb w1 :
  packNodes env (initialBatch env) nodesToFill w = (Ok pb, w1) ->
  nodesSent pb <> [] ->
  sentTxs (snd (tryBulkFillNodes env nodesToFill w)) = sentTxs w ++ [tx pb].
Proof.
  intros Hpack Hne.
  assert (Hw1 : sentTxs w1 = sentTxs w).
  { pose proof (preserves_packNodes (fun w' => sentTxs w' = sentTxs w)) as Hp.
    specialize (Hp ltac:(congruence) env nodesToFill (initialBatch env) w
                  eq_refl).
    by rewrite Hpack in Hp. }
  unfold tryBulkFillNodes. unfold bind at 1. rewrite Hpack.
  destruct (nodesSent pb) as [|c sent] eqn:Es; [done|].
  cbn [length Nat.eqb]. unfold seq at 1 2. unfold bind at 1 2.
  unfold logger at 1 2. unfold modify at 1 2. cbv iota beta.
  rewrite try_catch_modify.
  set (P := fun w' : World => sentTxs w' = sentTxs w ++ [tx pb]).
  assert (Hf : forall w0 w', nodes w' = nodes w0 ->
            throttledNodes w' = throttledNodes w0 ->
            dlobRemoved w' = dlobRemoved w0 -> sentTxs w' = sentTxs w0 ->
            P w0 -> P w') by (unfold P; congruence).
  assert (Hs : forall w0 c0 a now w',
            userAccount (nodes w0 (node c0)) = Some a -> P w' ->
            P (with_throttledNodes
                 (<[getNodeToFillSignature w0 c0 := now]> (throttledNodes w')) w'))
    by done.
  assert (Hr : forall l w0, P w0 -> P (with_dlobRemoved l w0)) by done.
  apply (preserves_try_catch P).
  - apply preserves_bind; [apply preserves_lift|]. intros txSig.
    apply preserves_seq; [by apply preserves_logger|].
    apply preserves_seq; [by apply preserves_metric|].
    apply preserves_seq; [by apply preserves_processBulkFillTxLogs|].
    apply preserves_seq; [by apply preserves_logger|].
    apply preserves_seq; [by apply preserves_metric|].
    apply preserves_seq; [by apply preserves_metric | apply preserves_ret].
  - intros e. by apply preserves_tryBulkFillNodes_catch.
  - unfold P. world_simpl. by rewrite Hw1.
Qed.

(** C10: the dry-run flag is consulted on the single-candidate path only.
    With the flag set, tryFillNode resolves the fill information, logs, and
    returns without calling the SDK's fillOrder and without sending anything.
    The batched path does not read the flag: tryBulkFillNodes behaves the same
    for both values of it, and with the flag set it still hands every
    non-empty batch to the transaction sender. *)
Theorem dryRun_guards_only_the_fallback env :
  (forall c w a info,
     dryRun env = true ->
     userAccount (nodes w (node c)) = Some a ->
     getNodeFillInfo env (nodes w) c = Ok info ->
     exists w',
       tryFillNode env (Some c) w = (Ok None, w') /\
       fillOrderCalls w' = fillOrderCalls w /\
       sentTxs w' = sentTxs w /\
       throttledNodes w' = throttledNodes w /\
       nodes w' = nodes w) /\
  (forall b nodesToFill w,
     tryBulkFillNodes (with_dryRun b env) nodesToFill w
     = tryBulkFillNodes env nodesToFill w) /\
  (forall nodesToFill w pb w1,
     dryRun env = true ->
     packNodes env (initialBatch env) nodesToFill w = (Ok pb, w1) ->
     nodesSent pb <> [] ->
     sentTxs (snd (tryBulkFillNodes env nodesToFill w)) = sentTxs w ++ [tx pb]).
Proof.
  split; [|split].
  - intros c w a info Hdry Ha Hinfo. unfold tryFillNode. mstep.
    rewrite Ha. cbn [toString]. unfold tryFillNode_fill. mstep.
    rewrite Hinfo, Hdry. mstep. eexists. split; [reflexivity|]. repeat split.
  - intros b nodesToFill w. apply tryBulkFillNodes_dryRun.
  - intros nodesToFill w pb w1 _. apply tryBulkFillNodes_sends.
Qed.

Lemma dryRun_guards_only_the_fallback_witness :
  (exists w',
     tryFillNode demo_env_dry (Some (mkNodeToFill 1%nat None)) demo_world
       = (Ok None, w') /\
     fillOrderCalls w' = [] /\ sentTxs w' = []) /\
  length (sentTxs (snd (tryBulkFillNodes demo_env_dry demo_candidates
                          demo_world))) = 1%nat.
Proof.
  destruct (dryRun_guards_only_the_fallback demo_env_dry) as (H1 & _ & H3).
  split.
  - destruct (H1 (mkNodeToFill 1%nat None) demo_world "user1"
                (mkFillInfo None (mkChUser "user1" "user1/authority") None)
                eq_refl eq_refl eq_refl) as (w' & Hrun & Hf & Hs & _).
    exists w'. split; [exact Hrun|]. split; [exact Hf | exact Hs].
  - assert (Hp : packNodes demo_env_dry (initialBatch demo_env_dry)
                   demo_candidates demo_world = (Ok _, _))
      by (vm_compute; reflexivity).
    rewrite (H3 demo_candidates demo_world _ _ eq_refl Hp);
      [reflexivity | discriminate].
Defined.

(** ** Batched submission that fails *)

(** When the sender throws, the handler of the batched submission logs and
    does nothing else: the registry and the removals are as they were before
    the call, and the transaction was handed over once. *)
Lemma tryBulkFillNodes_send_failure env nodesToFill w pb w1 e :
  packNodes env (initialBatch env) nodesToFill w = (Ok pb, w1) ->
  nodesSent pb <> [] ->
  txSender_send env (tx pb) = Throw e ->
  let w' := snd (tryBulkFillNodes env nodesToFill w) in
  throttledNodes w' = throttledNodes w /\
  dlobRemoved w' = dlobRemoved w /\
  nodes w' = nodes w /\
  sentTxs w' = sentTxs w ++ [tx pb].
Proof.
  intros Hpack Hne Hsend. cbv zeta.
  split; [|split; [|split]]; [| | |by eapply tryBulkFillNodes_sends].
  all: set (P := fun w' : World =>
                   throttledNodes w' = throttledNodes w /\
                   dlobRemoved w' = dlobRemoved w /\ nodes w' = nodes w).
  all: assert (Hf : forall w0 w', nodes w' = nodes w0 ->
            throttledNodes w' = throttledNodes w0 ->
            dlobRemoved w' = dlobRemoved w0 -> sentTxs w' = sentTxs w0 ->
            P w0 -> P w')
         by (unfold P; intros w0 w' -> -> -> _; done).
  all: assert (Ht : forall l w0, P w0 -> P (with_sentTxs l w0)) by done.
  all: assert (HP : P (snd (tryBulkFillNodes env nodesToFill w))).
  all: try (unfold tryBulkFillNodes; unfold bind at 1;
            pose proof (preserves_packNodes P Hf env nodesToFill
                          (initialBatch env) w) as Hp;
            rewrite Hpack in *;
            destruct (nodesSent pb) as [|c sent] eqn:Es; [done|];
            cbn [length Nat.eqb];
            apply preserves_seq; [by apply preserves_logger| |by apply Hp];
            apply preserves_seq; [by apply preserves_logger|];
            intros w2 Hw2; rewrite try_catch_modify;
            unfold try_catch, bind, lift; rewrite Hsend;
            apply preserves_tryBulkFillNodes_catch; [exact Hf|];
            by apply Ht).
  all: apply HP.
Qed.

(** C7 (the code at the failing input): one candidate is packed and the sender
    rejects the transaction with diagnostics that say the order does not
    exist.  The call returns [undefined]; the registry is still empty and no
    removal was issued; the transaction was sent once. *)
Theorem batch_failure_neither_throttles_nor_removes :
  let r := tryBulkFillNodes demo_env_send_fails (take 1 demo_candidates)
             demo_world in
  fst r = Ok None /\
  throttledNodes (snd r) = ∅ /\
  dlobRemoved (snd r) = [] /\
  length (sentTxs (snd r)) = 1%nat.
Proof. vm_compute. repeat split. Qed.

(** ** The cycle entry point *)

Lemma getFillableNodesForMarket_unfold env market w :
  getFillableNodesForMarket env market w = (marketResult env market, w).
Proof.
  unfold getFillableNodesForMarket, marketResult, bind, lift,
    dlobMutex_runExclusive, throw.
  destruct (oraclePrices env market) as [[[vBid vAsk] oracle]|e]; simpl;
    [|reflexivity].
  destruct (dlobMutex_acquired env (AtMarket market)); reflexivity.
Qed.

(** The selection stops at the first market whose query fails. *)
Lemma collectFillableNodes_throw env pre market post e w :
  Forall (fun m => exists found, marketResult env m = Ok found) pre ->
  marketResult env market = Throw e ->
  forall acc,
    collectFillableNodes env acc (pre ++ market :: post) w = (Throw e, w).
Proof.
  intros Hpre Hm. induction Hpre as [|m pre [found Hfound] _ IH]; intros acc.
  - simpl. unfold bind. rewrite getFillableNodesForMarket_unfold, Hm.
    reflexivity.
  - simpl. unfold bind. rewrite getFillableNodesForMarket_unfold, Hfound.
    apply IH.
Qed.

Lemma logEach_ok lvl lines :
  forall w, fst (logEach lvl lines w) = Ok tt.
Proof.
  induction lines as [|l rest IH]; intros w; [reflexivity|].
  simpl. unfold seq, bind, logger, modify. apply IH.
Qed.

(** A refused submission whose error carries logs does not leave the batched
    path as an exception. *)
Lemma tryBulkFillNodes_absorbs_send_failure env nodesToFill w pb w1 msg logs :
  packNodes env (initialBatch env) nodesToFill w = (Ok pb, w1) ->
  txSender_send env (tx pb) = Throw (SendTransactionError msg (Some logs)) ->
  exists r, fst (tryBulkFillNodes env nodesToFill w) = Ok r.
Proof.
  intros Hpack Hsend. unfold tryBulkFillNodes. unfold bind at 1.
  rewrite Hpack. mstep.
  destruct (Nat.eqb _ _); [by eexists|].
  unfold try_catch. mstep. rewrite Hsend.
  unfold tryBulkFillNodes_catch. mstep. cbn [error_logs].
  match goal with
  | |- context [logEach Error logs ?w0] =>
      pose proof (logEach_ok Error logs w0) as Hl;
      destruct (logEach Error logs w0) as [r w2]
  end.
  simpl in Hl. subst r. by eexists.
Qed.

(** C8 (the code at the failing inputs): two errors of the handled kinds leave
    the cycle entry point as a [TypeError].  In the first cycle the wait for
    the snapshot lock times out at the removal of a stale order, during
    reconciliation: the handler of the batched path catches the timeout and
    throws on its missing [logs]; the entry point re-raises that, the
    timeout line is never logged and the order is not removed.  In the second
    the sender fails with an error that carries no logs, with the same
    result. *)
Theorem handled_errors_escape_entry_point :
  let r := tryFill demo_env_removal_times_out demo_world in
  let r' := tryFill demo_env_unexpected demo_world in
  fst r = Throw (TypeError "simError.logs is not iterable") /\
  ~ In (Error, "filler dlobMutexError timeout") (logged (snd r)) /\
  dlobRemoved (snd r) = [] /\
  length (sentTxs (snd r)) = 1%nat /\
  fst r' = Throw (TypeError "simError.logs is not iterable").
Proof.
  cbv zeta. split; [vm_compute; reflexivity|].
  split; [|vm_compute; repeat split].
  intros H. vm_compute in H.
  repeat (destruct H as [H|H]; [discriminate H|]). exact H.
Qed.

(** X24: at the cycle entry point, (1) when the cycle gate is already held the
    call returns normally having only reported the busy gate to the metrics
    sink: nothing is logged and nothing else changes; (2) when the bounded
    wait for the snapshot lock runs out at the rebuild or at a market query
    of the selection, the call returns normally, the error line is logged,
    nothing is submitted and the cycle gate is free again; (3) the call
    raises [e] exactly when the gated cycle body raised [e] and [e] is neither
    of the two handled conditions. *)
Theorem cycle_entry_point_error_policy env w :
  (periodicTaskMutex w = true ->
     tryFill env w =
       (Ok tt,
        with_metrics (option_map (fun l => l ++ [RecordMutexBusy]) (metrics w))
          w)) /\
  (periodicTaskMutex w = false ->
   dlobMutex_acquired env AtRebuild = false ->
     tryFill env w =
       (Ok tt,
        with_logged
          (logged w ++ [(Error, name env +:+ " dlobMutexError timeout")])
          (with_periodicTaskMutex false w))) /\
  (forall pre market post,
     periodicTaskMutex w = false ->
     dlobMutex_acquired env AtRebuild = true ->
     dlob_init env = Ok tt ->
     getMarketAccounts env = pre ++ market :: post ->
     Forall (fun m => exists found, marketResult env m = Ok found) pre ->
     marketResult env market = Throw dlobMutexError ->
     exists w',
       tryFill env w = (Ok tt, w') /\
       logged w' = logged w ++ [(Error, name env +:+ " dlobMutexError timeout")] /\
       sentTxs w' = sentTxs w /\
       throttledNodes w' = throttledNodes w /\
       periodicTaskMutex w' = false) /\
  (forall e w',
     tryFill env w = (Throw e, w') <->
     tryAcquire_runExclusive (tryFill_body env) w = (Throw e, w') /\
     e <> E_ALREADY_LOCKED /\ e <> dlobMutexError).
Proof.
  split; [|split; [|split]].
  - intros Hbusy. unfold tryFill, try_catch, tryAcquire_runExclusive. mstep.
    rewrite Hbusy. reflexivity.
  - intros Hfree Htimeout.
    unfold tryFill, try_catch, try_finally, tryAcquire_runExclusive,
      tryFill_body. mstep.
    rewrite Hfree, Htimeout. reflexivity.
  - intros pre market post Hfree Hlock Hinit Hmarkets Hpre Hm.
    unfold tryFill, tryAcquire_runExclusive, tryFill_body, try_catch,
      try_finally. mstep.
    rewrite Hfree, Hlock, Hinit, Hmarkets. mstep.
    rewrite (collectFillableNodes_throw env pre market post dlobMutexError _
               Hpre Hm).
    cbn [tryFill_catch]. mstep. cbn [when]. eexists. split; [reflexivity|].
    repeat split.
  - intros e w'. unfold tryFill, try_catch. unfold bind at 1. unfold seq at 1 2.
    unfold bind at 1 2.
    destruct (tryAcquire_runExclusive (tryFill_body env) w) as [[u|e0] w1].
    + cbn [ret when]. mstep. split; [discriminate|intros [? _]; discriminate].
    + destruct e0; cbn [tryFill_catch]; mstep; cbn [when];
        (split; [intros [= <- <-] || discriminate
                |intros (Heq & Hne1 & Hne2); injection Heq as <- <-; done]);
        repeat split; discriminate.
Qed.

Lemma cycle_entry_point_error_policy_witness :
  tryFill demo_env demo_busy_world
    = (Ok tt, with_metrics (Some [RecordMutexBusy]) demo_busy_world) /\
  tryFill demo_env_rebuild_times_out demo_world
    = (Ok tt, with_logged [(Error, "filler dlobMutexError timeout")] demo_world) /\
  (exists w',
     tryFill demo_env_market_times_out demo_world = (Ok tt, w') /\
     logged w' = [(Error, "filler dlobMutexError timeout")] /\
     sentTxs w' = []) /\
  (exists msg w',
     tryFill demo_env_unexpected demo_world = (Throw (TypeError msg), w') /\
     TypeError msg <> dlobMutexError).
Proof.
  split; [|split; [|split]].
  - exact (proj1 (cycle_entry_point_error_policy demo_env demo_busy_world)
             eq_refl).
  - exact (proj1 (proj2 (cycle_entry_point_error_policy
                           demo_env_rebuild_times_out demo_world))
             eq_refl eq_refl).
  - destruct (proj1 (proj2 (proj2 (cycle_entry_point_error_policy
                                     demo_env_market_times_out demo_world)))
                [] (mkMarket 0) [] eq_refl eq_refl eq_refl eq_refl
                (List.Forall_nil _) eq_refl)
      as (w' & Hrun & Hlog & Hsent & _).
    exists w'. split; [exact Hrun|]. split; [exact Hlog | exact Hsent].
  - assert (Hrun : tryFill demo_env_unexpected demo_world
                   = (Throw (TypeError _), _)) by (vm_compute; reflexivity).
    eexists _, _. split; [exact Hrun|].
    apply (proj1 (proj2 (proj2 (proj2 (cycle_entry_point_error_policy
                                         demo_env_unexpected demo_world)))
                    _ _) Hrun).
Defined.

(** ** The deployed constant *)

(** With the backoff the file sets, an attempt recorded no later than the
    lookup never stops a candidate. *)
Lemma deployed_backoff_never_throttles env c w t :
  FILL_ORDER_BACKOFF env = deployed_FILL_ORDER_BACKOFF ->
  throttledNodes w !! getNodeToFillSignature w c = Some t ->
  t <= Date_now env (clockReads w) ->
  isVammNode (nodes w (node c)) = false ->
  haveFilled (nodes w (node c)) = false ->
  fst (filterFillableNodes env c w) = Ok (vammCheck env w c).
Proof.
  intros HW Hentry Hle Hv Hf. rewrite filterFillableNodes_unfold. cbv zeta.
  rewrite Hv, Hf, Hentry, HW. unfold deployed_FILL_ORDER_BACKOFF.
  destruct (Z.gtb_spec (t + 0) (Date_now env (clockReads w))); [lia|].
  reflexivity.
Qed.

(** * Further properties of the code *)

(** ** Size estimation *)

Lemma calcCompactU16EncodedSize_ge_2 {A} (array : list A) :
  2 <= calcCompactU16EncodedSize array 1.
Proof.
  unfold calcCompactU16EncodedSize.
  set (len := Z.of_nat (length array)).
  assert (0 <= len) by (unfold len; lia).
  destruct (len >? 16383) eqn:E1; [lia|].
  destruct (len >? 127) eqn:E2; [lia|].
  destruct (len * 1 =? 0) eqn:E3; [lia|].
  apply Z.eqb_neq in E3. lia.
Qed.

Lemma length_new_Array n : length (new_Array n) = n.
Proof. apply repeat_length. Qed.

(** X1: the estimate never shrinks when the array grows: for a non-negative
    element size, an array at least as long is estimated at least as large,
    across the one-, two- and three-byte prefix ranges. *)
Theorem calcCompactU16EncodedSize_monotone {A B}
    (shorter : list A) (longer : list B) (e : Z) :
  0 <= e ->
  (length shorter <= length longer)%nat ->
  calcCompactU16EncodedSize shorter e <= calcCompactU16EncodedSize longer e.
Proof.
  intros He Hlen. unfold calcCompactU16EncodedSize.
  set (n := Z.of_nat (length shorter)). set (m := Z.of_nat (length longer)).
  assert (0 <= n <= m) by (unfold n, m; lia).
  assert (n * e <= m * e) by nia.
  assert (0 <= n * e) by nia.
  destruct (Z.gtb_spec n 16383), (Z.gtb_spec m 16383),
           (Z.gtb_spec n 127), (Z.gtb_spec m 127),
           (Z.eqb_spec (n * e) 0), (Z.eqb_spec (m * e) 0); lia.
Qed.

Lemma calcCompactU16EncodedSize_monotone_witness :
  calcCompactU16EncodedSize (new_Array 127) 32
  <= calcCompactU16EncodedSize (new_Array 128) 32.
Proof.
  apply calcCompactU16EncodedSize_monotone; [lia|].
  rewrite !length_new_Array. lia.
Defined.

Lemma calcIxEncodedSize_ge_5 (ix : TransactionInstruction) :
  5 <= calcIxEncodedSize ix.
Proof.
  unfold calcIxEncodedSize.
  pose proof (calcCompactU16EncodedSize_ge_2 (new_Array (length (keys ix)))).
  pose proof (calcCompactU16EncodedSize_ge_2 (new_Array (length (data ix)))).
  lia.
Qed.

(** X2: an instruction with [k] accounts and [d] bytes of data is estimated
    between [k + d + 3] and [k + d + 7] bytes, and never below 5: one byte for
    the program index and two length-prefixed arrays, each charged at least
    two bytes. *)
Theorem calcIxEncodedSize_bounds (ix : TransactionInstruction) :
  let k := Z.of_nat (length (keys ix)) in
  let d := Z.of_nat (length (data ix)) in
  k + d + 3 <= calcIxEncodedSize ix <= k + d + 7 /\
  5 <= calcIxEncodedSize ix.
Proof.
  cbv zeta. unfold calcIxEncodedSize.
  pose proof (calcCompactU16EncodedSize_ge_2 (new_Array (length (keys ix)))).
  pose proof (calcCompactU16EncodedSize_ge_2 (new_Array (length (data ix)))).
  split; [|lia].
  unfold calcCompactU16EncodedSize. rewrite !length_new_Array.
  set (k := Z.of_nat (length (keys ix))). set (d := Z.of_nat (length (data ix))).
  assert (0 <= k /\ 0 <= d) as [? ?] by (unfold k, d; lia).
  destruct (Z.gtb_spec k 16383), (Z.gtb_spec k 127), (Z.eqb_spec (k * 1) 0),
           (Z.gtb_spec d 16383), (Z.gtb_spec d 127), (Z.eqb_spec (d * 1) 0);
    lia.
Qed.

(** ** Batch packer: what a batch holds *)

(** Induction over the packing loop: a property of the starting batch that
    every acceptance maintains holds of the batch returned. *)
Lemma packNodes_maintains env (P : PendingBatch -> Prop)
    (nodeOf : NodeRef -> DLOBNode) :
  (forall pb c info ix,
     P pb ->
     resolveFillOrderIx env nodeOf c = Ok (info, ix) ->
     runningTxSize pb + estimatedCost (uniqueAccounts pb) ix < maxTxSize ->
     P (addToBatch pb c ix)) ->
  forall nodesToFill pb0 w pb w',
    nodes w = nodeOf ->
    P pb0 ->
    packNodes env pb0 nodesToFill w = (Ok pb, w') ->
    P pb.
Proof.
  intros Hstep. induction nodesToFill as [|c rest IH]; intros pb0 w pb w' Hn H0.
  - intros [= <- <-]. exact H0.
  - rewrite packNodes_cons.
    destruct (packNode env pb0 c w) as [[[pb1|]|e] w1] eqn:E; [| |discriminate].
    + pose proof (packNode_nodes _ _ _ _ _ _ E) as Hn1.
      apply packNode_accept in E as (info & ix & Hres & -> & Hlt).
      apply IH; [congruence|].
      apply Hstep with info; [exact H0|congruence|].
      unfold estimatedCost. simpl in Hlt. lia.
    + intros [= <- <-]. exact H0.
Qed.

(** X3: the transaction of a packed batch is the compute-budget instruction
    followed by one instruction per accepted candidate, in the order of
    acceptance, each the instruction its candidate resolves to; [idxUsed]
    counts the accepted candidates.  Position [i] of [nodesSent] therefore
    belongs to instruction [i + 1] of the transaction. *)
Theorem packed_tx_layout env nodesToFill w pb w' :
  packNodes env (initialBatch env) nodesToFill w = (Ok pb, w') ->
  exists ixs,
    tx pb = computeBudgetIx env :: ixs /\
    Forall2 (fun c ix => exists info,
               resolveFillOrderIx env (nodes w) c = Ok (info, ix))
            (nodesSent pb) ixs /\
    idxUsed pb = Z.of_nat (length (nodesSent pb)).
Proof.
  apply (packNodes_maintains env
           (fun pb => exists ixs,
              tx pb = computeBudgetIx env :: ixs /\
              Forall2 (fun c ix => exists info,
                         resolveFillOrderIx env (nodes w) c = Ok (info, ix))
                      (nodesSent pb) ixs /\
              idxUsed pb = Z.of_nat (length (nodesSent pb)))
           (nodes w)); [|reflexivity|].
  - intros pb0 c info ix (ixs & Htx & Hall & Hidx) Hres _.
    exists (ixs ++ [ix]). simpl. rewrite Htx. split; [reflexivity|]. split.
    + apply Forall2_app; [exact Hall|]. repeat constructor. by exists info.
    + rewrite Hidx, length_app. simpl. lia.
  - exists []. simpl. repeat split. constructor.
Qed.

Lemma packed_tx_layout_witness :
  exists pb w' ixs,
    packNodes demo_env (initialBatch demo_env) demo_candidates demo_world
      = (Ok pb, w') /\
    tx pb = demo_computeBudgetIx :: ixs /\ length ixs = 2%nat /\
    idxUsed pb = 2.
Proof.
  assert (Hp : packNodes demo_env (initialBatch demo_env) demo_candidates
                 demo_world = (Ok _, _)) by (vm_compute; reflexivity).
  destruct (packed_tx_layout _ _ _ _ _ Hp) as (ixs & Htx & Hall & Hidx).
  eexists _, _, ixs. split; [exact Hp|]. split; [exact Htx|].
  split; [|exact Hidx]. apply Forall2_length in Hall. rewrite <- Hall.
  reflexivity.
Defined.

Lemma elem_of_newAccountsOf ua ix k :
  k ∈ accountsOf ix -> k ∈ ua \/ k ∈ newAccountsOf ua ix.
Proof.
  intros Hk. destruct (decide (k ∈ ua)) as [Hin|Hnin]; [by left|]. right.
  unfold newAccountsOf. apply list_elem_of_In, filter_In.
  split; [by apply list_elem_of_In|].
  by rewrite bool_decide_eq_false_2.
Qed.

(** X4: every account an instruction of the packed transaction refers to (its
    keys and its program) is in the batch's set of unique accounts, and so is
    the fee payer. *)
Theorem packed_accounts_registered env nodesToFill w pb w' :
  packNodes env (initialBatch env) nodesToFill w = (Ok pb, w') ->
  wallet_publicKey env ∈ uniqueAccounts pb /\
  forall ix k, ix ∈ tx pb -> k ∈ accountsOf ix -> k ∈ uniqueAccounts pb.
Proof.
  apply (packNodes_maintains env
           (fun pb =>
              wallet_publicKey env ∈ uniqueAccounts pb /\
              forall ix k, ix ∈ tx pb -> k ∈ accountsOf ix ->
                           k ∈ uniqueAccounts pb)
           (nodes w)); [|reflexivity|].
  - intros pb0 c info ix [Hw Hall] _ _. simpl. split; [set_solver|].
    intros ix' k Hix Hk. apply elem_of_app in Hix as [Hix|Hix].
    + apply elem_of_union. right. by eapply Hall.
    + apply list_elem_of_singleton in Hix as ->. apply elem_of_union.
      destruct (elem_of_newAccountsOf (uniqueAccounts pb0) ix k Hk) as [H|H];
        [by right|left]. by apply elem_of_list_to_set.
  - simpl. unfold envelopeAccounts. split; [set_solver|].
    intros ix k Hix Hk. apply list_elem_of_singleton in Hix as ->.
    unfold accountsOf in Hk. apply elem_of_app in Hk as [Hk|Hk].
    + apply elem_of_union. left. apply elem_of_union. right.
      by apply elem_of_list_to_set.
    + apply list_elem_of_singleton in Hk as ->. set_solver.
Qed.

Lemma packed_accounts_registered_witness :
  exists pb w',
    packNodes demo_env (initialBatch demo_env) demo_candidates demo_world
      = (Ok pb, w') /\
    "payer" ∈ uniqueAccounts pb /\ "user2/stats" ∈ uniqueAccounts pb.
Proof.
  assert (Hp : packNodes demo_env (initialBatch demo_env) demo_candidates
                 demo_world = (Ok _, _)) by (vm_compute; reflexivity).
  destruct (packed_accounts_registered _ _ _ _ _ Hp) as [Hw Hall].
  eexists _, _. split; [exact Hp|]. split; [exact Hw|].
  apply (Hall (demo_fillIx "user2" 200)).
  - apply list_elem_of_In. simpl. auto 10.
  - apply list_elem_of_In. simpl. auto 10.
Defined.

(** ** Batch packer: the running counter *)

Lemma calcCompactU16EncodedSize_ge_payload {A} (array : list A) (e : Z) :
  0 <= e ->
  Z.of_nat (length array) * e + 1 <= calcCompactU16EncodedSize array e.
Proof.
  intros He. unfold calcCompactU16EncodedSize.
  set (n := Z.of_nat (length array)).
  destruct (Z.gtb_spec n 16383), (Z.gtb_spec n 127), (Z.eqb_spec (n * e) 0);
    lia.
Qed.

Lemma calcCompactU16EncodedSize_small {A} (array : list A) (e : Z) :
  0 < e ->
  (1 <= length array <= 127)%nat ->
  calcCompactU16EncodedSize array e = 1 + Z.of_nat (length array) * e.
Proof.
  intros He Hn. unfold calcCompactU16EncodedSize.
  set (n := Z.of_nat (length array)). assert (1 <= n <= 127) by (unfold n; lia).
  destruct (Z.gtb_spec n 16383), (Z.gtb_spec n 127), (Z.eqb_spec (n * e) 0);
    nia.
Qed.

Lemma sumIxSizes_snoc t ix :
  sumIxSizes (t ++ [ix]) = sumIxSizes t + calcIxEncodedSize ix.
Proof.
  unfold sumIxSizes. induction t as [|ix' t IH]; simpl; [lia|].
  rewrite IH. lia.
Qed.

Lemma sumIxSizes_nonneg t : 0 <= sumIxSizes t.
Proof.
  unfold sumIxSizes. induction t as [|ix t IH]; simpl; [lia|].
  pose proof (calcIxEncodedSize_ge_3 ix). lia.
Qed.

Lemma size_union_list_to_set (l : list string) (X : gset string) :
  (size X <= size (list_to_set l ∪ X) <= length l + size X)%nat.
Proof.
  split; [apply subseteq_size, union_subseteq_r|].
  induction l as [|x l IH]; simpl.
  - by rewrite (left_id_L ∅ (∪)).
  - rewrite <- (assoc_L (∪)), size_union_alt, size_singleton.
    assert (size ((list_to_set l ∪ X) ∖ {[x]}) <= size (list_to_set l ∪ X))%nat.
    { apply subseteq_size. intros y Hy.
      by apply elem_of_difference in Hy as [Hy _]. }
    lia.
Qed.

Lemma size_union_new_accounts (ua : gset string) ix :
  NoDup (accountsOf ix) ->
  size (list_to_set (newAccountsOf ua ix) ∪ ua)
  = (length (newAccountsOf ua ix) + size ua)%nat.
Proof.
  intros Hnd. rewrite size_union.
  - rewrite size_list_to_set; [reflexivity|].
    unfold newAccountsOf.
    by apply NoDup_ListNoDup, List.NoDup_filter, NoDup_ListNoDup.
  - intros k Hk Hua. apply elem_of_list_to_set, list_elem_of_In in Hk.
    unfold newAccountsOf in Hk. apply filter_In in Hk as [_ Hk].
    by rewrite bool_decide_eq_true_2 in Hk.
Qed.

Lemma envelopeAccounts_size env : (1 <= size (envelopeAccounts env))%nat.
Proof.
  destruct (size (envelopeAccounts env)) eqn:E; [|lia].
  apply size_empty_inv in E. unfold envelopeAccounts in E. set_solver.
Qed.

(** How the recomputed estimate and the running counter move together at one
    acceptance that keeps the counter under the budget. *)
Lemma addToBatch_estimate pb c ix :
  (1 <= size (uniqueAccounts pb))%nat ->
  recomputedTxSize pb <= runningTxSize pb ->
  runningTxSize pb + estimatedCost (uniqueAccounts pb) ix < maxTxSize ->
  (1 <= size (uniqueAccounts (addToBatch pb c ix)))%nat /\
  recomputedTxSize (addToBatch pb c ix) <= runningTxSize (addToBatch pb c ix) /\
  (NoDup (accountsOf ix) ->
   runningTxSize pb = recomputedTxSize pb ->
   runningTxSize (addToBatch pb c ix) = recomputedTxSize (addToBatch pb c ix)).
Proof.
  intros Hs Hle Hfit. unfold estimatedCost, maxTxSize in Hfit.
  unfold recomputedTxSize in *. simpl. rewrite sumIxSizes_snoc.
  remember (newAccountsOf (uniqueAccounts pb) ix) as new eqn:Enew.
  remember (size (uniqueAccounts pb)) as s eqn:Es.
  remember (size (list_to_set new ∪ uniqueAccounts pb)) as s' eqn:Es'.
  assert (Hbounds : (s <= s' <= length new + s)%nat)
    by (rewrite Es, Es'; apply size_union_list_to_set).
  assert (Hsz : NoDup (accountsOf ix) -> s' = (length new + s)%nat)
    by (intros Hnd; rewrite Es, Es', Enew;
        by apply size_union_new_accounts).
  pose proof (calcIxEncodedSize_ge_3 ix) as Hix.
  pose proof (sumIxSizes_nonneg (tx pb)) as Hsum.
  pose proof (calcCompactU16EncodedSize_ge_payload (new_Array s) 32
                ltac:(lia)) as Hcs.
  rewrite length_new_Array in Hcs.
  pose proof (calcCompactU16EncodedSize_ge_1 (new_Array 1) 64 ltac:(lia)).
  assert (Hadd : 32 * Z.of_nat (length new) <= additionalAccountsCost new).
  { unfold additionalAccountsCost.
    destruct (Z.gtb_spec (Z.of_nat (length new)) 0); [|lia].
    pose proof (calcCompactU16EncodedSize_ge_payload new 32 ltac:(lia)). lia. }
  assert (Hs' : (1 <= s' <= 31)%nat) by lia.
  assert (Hs31 : (1 <= s <= 31)%nat) by lia.
  rewrite (calcCompactU16EncodedSize_small (new_Array s') 32) in *
    by (rewrite ?length_new_Array; lia).
  rewrite (calcCompactU16EncodedSize_small (new_Array s) 32) in *
    by (rewrite ?length_new_Array; lia).
  rewrite !length_new_Array in *.
  split; [lia|]. split; [lia|].
  intros Hnd Heq. specialize (Hsz Hnd).
  unfold additionalAccountsCost in *.
  destruct (Z.gtb_spec (Z.of_nat (length new)) 0).
  - rewrite (calcCompactU16EncodedSize_small new 32) in * by lia. lia.
  - lia.
Qed.

(** X5: the running counter of a packed batch never under-estimates the size
    recomputed from what the batch holds (signature array, header, account
    array over the unique accounts, block hash, and the instructions), and it
    equals that size when every instruction of the batch names each of its
    accounts once.  An account named twice by one instruction is charged
    twice by the counter. *)
Theorem running_size_covers_recomputed env nodesToFill w pb w' :
  packNodes env (initialBatch env) nodesToFill w = (Ok pb, w') ->
  recomputedTxSize pb <= runningTxSize pb /\
  (Forall (fun ix => NoDup (accountsOf ix)) (tx pb) ->
   runningTxSize pb = recomputedTxSize pb).
Proof.
  intros Hrun.
  cut ((1 <= size (uniqueAccounts pb))%nat /\
       recomputedTxSize pb <= runningTxSize pb /\
       (Forall (fun ix => NoDup (accountsOf ix)) (tx pb) ->
        runningTxSize pb = recomputedTxSize pb)); [tauto|].
  revert Hrun.
  apply (packNodes_maintains env
           (fun pb =>
              (1 <= size (uniqueAccounts pb))%nat /\
              recomputedTxSize pb <= runningTxSize pb /\
              (Forall (fun ix => NoDup (accountsOf ix)) (tx pb) ->
               runningTxSize pb = recomputedTxSize pb))
           (nodes w)); [|reflexivity|].
  - intros pb0 c info ix (Hs & Hle & Heq) _ Hfit.
    destruct (addToBatch_estimate pb0 c ix Hs Hle Hfit) as (Hs1 & Hle1 & Heq1).
    split; [exact Hs1|]. split; [exact Hle1|].
    intros Hall. simpl in Hall. apply Forall_app in Hall as [Hall Hix].
    apply Heq1; [by inversion Hix|]. by apply Heq.
  - split; [apply envelopeAccounts_size|].
    unfold recomputedTxSize, sumIxSizes. simpl. lia.
Qed.

Lemma running_size_covers_recomputed_witness :
  exists pb w',
    packNodes demo_env (initialBatch demo_env) demo_candidates demo_world
      = (Ok pb, w') /\
    runningTxSize pb = recomputedTxSize pb.
Proof.
  assert (Hp : packNodes demo_env (initialBatch demo_env) demo_candidates
                 demo_world = (Ok _, _)) by (vm_compute; reflexivity).
  eexists _, _. split; [exact Hp|].
  apply (proj2 (running_size_covers_recomputed _ _ _ _ _ Hp)).
  repeat (apply List.Forall_cons;
          [apply NoDup_ListNoDup; repeat constructor; simpl;
           intuition discriminate|]).
  apply List.Forall_nil.
Defined.

(** With an instruction that names "state" twice the counter is 32 bytes above
    the recomputed size. *)
Example duplicate_account_charged_twice :
  let pb := addToBatch (initialBatch demo_env) (mkNodeToFill 1%nat None)
              demo_dupIx in
  runningTxSize pb = recomputedTxSize pb + 32.
Proof. vm_compute. reflexivity. Qed.

(** X6: a packed batch holds at most 172 candidates: every acceptance adds at
    least five bytes to a counter that starts at 138 or more and stays below
    the budget of 1000. *)
Theorem packer_capacity env nodesToFill w pb w' :
  packNodes env (initialBatch env) nodesToFill w = (Ok pb, w') ->
  runningTxSize (initialBatch env) + 5 * Z.of_nat (length (nodesSent pb))
    <= runningTxSize pb /\
  138 <= runningTxSize (initialBatch env) /\
  (length (nodesSent pb) <= 172)%nat.
Proof.
  intros Hrun.
  assert (Henv : 138 <= runningTxSize (initialBatch env)).
  { simpl.
    pose proof (envelopeAccounts_size env).
    pose proof (calcCompactU16EncodedSize_ge_payload
                  (new_Array (size (envelopeAccounts env))) 32 ltac:(lia)) as H1.
    rewrite length_new_Array in H1.
    pose proof (calcIxEncodedSize_ge_5 (computeBudgetIx env)) as H2.
    change (calcCompactU16EncodedSize (new_Array 1) 64) with 65. lia. }
  cut (runningTxSize (initialBatch env) + 5 * Z.of_nat (length (nodesSent pb))
         <= runningTxSize pb /\
       (nodesSent pb <> [] -> runningTxSize pb < maxTxSize)).
  { intros [Hsum Hlt]. split; [exact Hsum|]. split; [exact Henv|].
    destruct (nodesSent pb) as [|c l] eqn:E; [simpl; lia|].
    specialize (Hlt ltac:(discriminate)). unfold maxTxSize in Hlt. lia. }
  revert Hrun.
  apply (packNodes_maintains env
           (fun pb =>
              runningTxSize (initialBatch env)
                + 5 * Z.of_nat (length (nodesSent pb)) <= runningTxSize pb /\
              (nodesSent pb <> [] -> runningTxSize pb < maxTxSize))
           (nodes w)); [|reflexivity|].
  - intros pb0 c info ix [Hsum _] _ Hfit. unfold estimatedCost in Hfit.
    pose proof (calcIxEncodedSize_ge_5 ix) as Hix.
    pose proof (additionalAccountsCost_nonneg
                  (newAccountsOf (uniqueAccounts pb0) ix)).
    cbn [addToBatch runningTxSize nodesSent]. rewrite length_app. simpl length.
    split; [lia|]. intros _. lia.
  - split; [simpl; lia|]. intros H. by destruct H.
Qed.

Lemma packer_capacity_witness :
  exists pb w',
    packNodes demo_env (initialBatch demo_env) demo_candidates demo_world
      = (Ok pb, w') /\
    178 + 5 * 2 <= runningTxSize pb.
Proof.
  assert (Hp : packNodes demo_env (initialBatch demo_env) demo_candidates
                 demo_world = (Ok _, _)) by (vm_compute; reflexivity).
  eexists _, _. split; [exact Hp|].
  exact (proj1 (packer_capacity _ _ _ _ _ Hp)).
Defined.

(** ** Batched submission: nothing packed *)

Lemma packNodes_nothing_sent env nodesToFill :
  forall pb0 w pb w',
    packNodes env pb0 nodesToFill w = (Ok pb, w') ->
    length (nodesSent pb) = length (nodesSent pb0) ->
    pb = pb0 /\ w' = w.
Proof.
  destruct nodesToFill as [|c rest]; intros pb0 w pb w'.
  - intros [= <- <-]. auto.
  - rewrite packNodes_cons.
    destruct (packNode env pb0 c w) as [[[pb1|]|e] w1] eqn:E; [| |discriminate].
    + intros Hrun Hlen. exfalso.
      apply packNode_accept in E as (info & ix & _ & -> & _).
      destruct (packNodes_prefix _ _ _ _ _ _ Hrun) as (acc & _ & _ & Hs & _).
      rewrite Hs in Hlen. simpl in Hlen. rewrite !length_app in Hlen.
      simpl in Hlen. lia.
    + intros [= <- <-] _. apply packNode_break in E as [-> _]. auto.
Qed.

(** X7: when the packer accepts nothing (no candidate was offered, or the first
    one does not fit), tryBulkFillNodes returns the empty string; it sends
    nothing, fetches nothing, and leaves the world as it was but for the two
    informational log lines. *)
Theorem empty_batch_is_not_sent env nodesToFill w pb w1 :
  packNodes env (initialBatch env) nodesToFill w = (Ok pb, w1) ->
  nodesSent pb = [] ->
  tryBulkFillNodes env nodesToFill w =
    (Ok (Some ""),
     with_logged (logged w ++ [(Info, "txPacker took"); (Info, "no ix")]) w).
Proof.
  intros Hpack Hnil.
  destruct (packNodes_nothing_sent _ _ _ _ _ _ Hpack) as [-> ->].
  { by rewrite Hnil. }
  unfold tryBulkFillNodes. unfold bind at 1. rewrite Hpack. mstep.
  cbn [initialBatch nodesSent length Nat.eqb]. mstep.
  by rewrite <- app_assoc.
Qed.

Lemma empty_batch_is_not_sent_witness :
  tryBulkFillNodes demo_env [] demo_world =
    (Ok (Some ""),
     with_logged [(Info, "txPacker took"); (Info, "no ix")] demo_world).
Proof.
  exact (empty_batch_is_not_sent demo_env [] demo_world (initialBatch demo_env)
           demo_world eq_refl eq_refl).
Defined.

(** ** Reconciliation: the log walk *)

(** The line after a marker either leaves the locals alone or counts one
    success. *)
Lemma processFillRecord_locals env nodesFilled st log w st' w' :
  processFillRecord env nodesFilled st log w = (Ok st', w') ->
  st' = st \/
  st' = mkLogWalk (nextIsFillRecord st) (ixIdx st) (successCount st + 1).
Proof.
  unfold processFillRecord, logAssocOrder.
  destruct (includes "Order does not exist" log).
  { mstep. destruct (array_get nodesFilled (ixIdx st)) as [c|]; mstep;
      [|discriminate].
    destruct (userAccount (nodes w (node c))) as [a|]; cbn [toString]; mstep;
      [|discriminate].
    destruct (toNumber _) as [id|e]; mstep; [|discriminate].
    destruct (dlobMutex_acquired _ _); mstep; [|discriminate].
    intros [= <- <-]. by left. }
  destruct (includes "Amm cant fulfill order" log).
  { mstep. destruct (array_get nodesFilled (ixIdx st)) as [c|]; mstep;
      [|discriminate].
    destruct (userAccount (nodes w (node c))) as [a|]; cbn [toString]; mstep;
      [|discriminate].
    destruct (toNumber _) as [id|e]; mstep; [|discriminate].
    intros [= <- <-]. by left. }
  destruct (_ >? _); mstep; intros [= <- <-]; auto.
Qed.

Lemma processLog_locals env nodesFilled txSig st log w st' w' :
  processLog env nodesFilled txSig st log w = (Ok st', w') ->
  0 <= successCount st <=
    ixIdx st + 1 - (if nextIsFillRecord st then 1 else 0) ->
  0 <= successCount st' <=
    ixIdx st' + 1 - (if nextIsFillRecord st' then 1 else 0) /\
  ixIdx st' = ixIdx st + (if isMarkerLine log && negb (nextIsFillRecord st)
                          then 1 else 0) /\
  successCount st <= successCount st'.
Proof.
  unfold processLog. destruct log as [log|]; cbn [isMarkerLine].
  2:{ mstep. intros [= <- <-] H. simpl. lia. }
  destruct (nextIsFillRecord st) eqn:En.
  - unfold bind at 1.
    destruct (processFillRecord env nodesFilled st log w) as [[st1|e] w1] eqn:E;
      [|discriminate].
    mstep. intros [= <- <-] H. rewrite andb_false_r.
    apply processFillRecord_locals in E as [->| ->]; simpl; lia.
  - destruct (isLogFillOrder log); mstep; intros [= <- <-] H; simpl;
      rewrite ?En; simpl; lia.
Qed.

(** X8: however the outcome log reads, the walk never counts more successes
    than it has seen fill markers, and it never indexes beyond them: when the
    walk completes, [0 <= successCount <= ixIdx + 1 <= number of marker
    lines]. *)
Theorem success_count_bounded_by_markers env nodesFilled txSig logs w st w' :
  processLogs env nodesFilled txSig initialLogWalk logs w = (Ok st, w') ->
  0 <= successCount st <= ixIdx st + 1 /\
  ixIdx st + 1 <= Z.of_nat (countMarkers logs).
Proof.
  assert (Hgen : forall logs st0 w0 st1 w1,
            processLogs env nodesFilled txSig st0 logs w0 = (Ok st1, w1) ->
            0 <= successCount st0 <=
              ixIdx st0 + 1 - (if nextIsFillRecord st0 then 1 else 0) ->
            0 <= successCount st1 <=
              ixIdx st1 + 1 - (if nextIsFillRecord st1 then 1 else 0) /\
            ixIdx st1 <= ixIdx st0 + Z.of_nat (countMarkers logs)).
  { clear. induction logs as [|log rest IH]; intros st0 w0 st1 w1.
    - intros [= <- <-] H. unfold countMarkers. simpl. lia.
    - cbn [processLogs]. unfold bind at 1.
      destruct (processLog env nodesFilled txSig st0 log w0)
        as [[st'|e] w0'] eqn:E; [|discriminate].
      intros Hrest H0.
      destruct (processLog_locals _ _ _ _ _ _ _ _ E H0) as (H1 & Hidx & _).
      destruct (IH _ _ _ _ Hrest H1) as [H2 H3]. split; [exact H2|].
      unfold countMarkers in *. simpl.
      destruct (isMarkerLine log); simpl in *;
        destruct (nextIsFillRecord st0); simpl in *; lia. }
  intros Hrun. destruct (Hgen _ _ _ _ _ Hrun) as [H1 H2].
  { simpl. lia. }
  simpl in H2. destruct (nextIsFillRecord st); lia.
Qed.

Lemma success_count_bounded_by_markers_witness :
  exists st w',
    processLogs demo_env (take 3 demo_candidates) "sig" initialLogWalk
      demo_logMessages demo_world = (Ok st, w') /\
    0 <= successCount st <= ixIdx st + 1 /\ ixIdx st + 1 <= 3.
Proof.
  assert (Hp : processLogs demo_env (take 3 demo_candidates) "sig"
                 initialLogWalk demo_logMessages demo_world = (Ok _, _))
    by (vm_compute; reflexivity).
  eexists _, _. split; [exact Hp|].
  exact (success_count_bounded_by_markers _ _ _ _ _ _ _ Hp).
Defined.

(** X9: lines outside a fill record are ignored.  A log in which no line is
    the fill marker leaves the locals of the walk at their initial values and
    changes neither the registry, nor the removals, nor the clock, nor the
    nodes: the walk can only log the null lines it meets. *)
Theorem log_without_markers_has_no_effect env nodesFilled txSig logs w :
  countMarkers logs = 0%nat ->
  exists w',
    processLogs env nodesFilled txSig initialLogWalk logs w
      = (Ok initialLogWalk, w') /\
    throttledNodes w' = throttledNodes w /\
    dlobRemoved w' = dlobRemoved w /\
    clockReads w' = clockReads w /\
    nodes w' = nodes w /\
    metrics w' = metrics w.
Proof.
  revert w. induction logs as [|log rest IH]; intros w Hcount.
  - exists w. repeat split.
  - unfold countMarkers in Hcount. simpl in Hcount.
    destruct (isMarkerLine log) eqn:Em; [discriminate|].
    cbn [processLogs]. unfold bind at 1, processLog.
    destruct log as [log|]; cbn [isMarkerLine initialLogWalk nextIsFillRecord]
      in *.
    + rewrite Em.
      destruct (IH w Hcount) as (w' & Hrun & Hrest). exists w'.
      split; [exact Hrun | exact Hrest].
    + mstep.
      destruct (IH (with_logged
                      (logged w ++ [(Error, "null log message on tx: " +:+ txSig)])
                      w) Hcount) as (w' & Hrun & H1 & H2 & H3 & H4 & H5).
      exists w'. split; [exact Hrun|]. repeat split; assumption.
Qed.

Lemma log_without_markers_has_no_effect_witness :
  exists w',
    processLogs demo_env demo_candidates "sig" initialLogWalk
      [Some "Program log: Order does not exist"; None] demo_world
      = (Ok initialLogWalk, w') /\
    throttledNodes w' = ∅ /\ dlobRemoved w' = [].
Proof.
  destruct (log_without_markers_has_no_effect demo_env demo_candidates "sig"
              [Some "Program log: Order does not exist"; None] demo_world
              eq_refl) as (w' & Hrun & H1 & H2 & _).
  exists w'. split; [exact Hrun|]. split; [exact H1 | exact H2].
Defined.

(** X10: a failure outcome for a fill record that has no packed candidate
    (its index is not below the number of candidates) raises a TypeError after
    the first error line is logged, before any removal or registry update. *)
Theorem outcome_beyond_packed_candidates_throws
    env nodesFilled st log w :
  Z.of_nat (length nodesFilled) <= ixIdx st ->
  includes "Order does not exist" log = true \/
  includes "Amm cant fulfill order" log = true ->
  exists msg,
    processFillRecord env nodesFilled st log w =
      (Throw (TypeError msg),
       with_logged
         (logged w ++ [(Error, " " +:+ log +:+ ", ix: " +:+ pretty (ixIdx st))])
         w).
Proof.
  intros Hidx Hlog.
  assert (Hget : array_get nodesFilled (ixIdx st) = None).
  { unfold array_get. destruct (Z.ltb_spec (ixIdx st) 0); [reflexivity|].
    apply lookup_ge_None. lia. }
  unfold processFillRecord, logAssocOrder. rewrite Hget.
  destruct (includes "Order does not exist" log); [mstep; eauto|].
  destruct Hlog as [Hlog|Hlog]; [discriminate|]. rewrite Hlog. mstep. eauto.
Qed.

Lemma outcome_beyond_packed_candidates_throws_witness :
  exists msg w',
    processFillRecord demo_env (take 1 demo_candidates) (mkLogWalk true 1 0)
      "Program log: Order does not exist" demo_world
    = (Throw (TypeError msg), w').
Proof.
  destruct (outcome_beyond_packed_candidates_throws demo_env
              (take 1 demo_candidates) (mkLogWalk true 1 0)
              "Program log: Order does not exist" demo_world)
    as [msg Hrun].
  - simpl. lia.
  - left. reflexivity.
  - eauto.
Defined.

(** ** Reconciliation: polling for the outcome record *)

Lemma waitForTransaction_all_null fetch txSig :
  forall remaining attempts w,
    (forall i, (i < remaining)%nat -> fetch (attempts + i)%nat = Ok None) ->
    waitForTransaction fetch txSig remaining attempts w =
      (Ok None,
       with_logged
         (logged w ++
          replicate remaining
            (Info, "waiting for " +:+ txSig +:+ " to be confirmed"))
         w).
Proof.
  induction remaining as [|n IH]; intros attempts w Hnull.
  - simpl. rewrite app_nil_r. by destruct w.
  - cbn [waitForTransaction]. mstep.
    pose proof (Hnull 0%nat ltac:(lia)) as H0. rewrite Nat.add_0_r in H0.
    rewrite H0. rewrite IH.
    + world_simpl. by rewrite <- app_assoc.
    + intros i Hi. rewrite <- (Hnull (S i) ltac:(lia)). f_equal. lia.
Qed.

(** X11: when the outcome record is still missing after ten fetches,
    reconciliation gives up: it has logged ten waiting lines and one error
    line, it returns normally, and nothing else has changed; in particular no
    success count is reported. *)
Theorem outcome_not_found_gives_up env nodesFilled txSig w :
  (forall i, (i < 10)%nat -> getTransaction env txSig i = Ok None) ->
  processBulkFillTxLogs env nodesFilled txSig w =
    (Ok tt,
     with_logged
       (logged w ++
        replicate 10 (Info, "waiting for " +:+ txSig +:+ " to be confirmed")
        ++ [(Error, "tx " +:+ txSig +:+ " not found")])
       w).
Proof.
  intros Hnull. unfold processBulkFillTxLogs. unfold bind at 1.
  rewrite waitForTransaction_all_null by exact Hnull.
  mstep. by rewrite <- app_assoc.
Qed.

Lemma outcome_not_found_gives_up_witness :
  exists w',
    processBulkFillTxLogs demo_env_not_found demo_candidates "sig" demo_world
      = (Ok tt, w') /\
    length (logged w') = 11%nat /\ metrics w' = Some [].
Proof.
  eexists. split.
  - apply (outcome_not_found_gives_up demo_env_not_found demo_candidates "sig"
             demo_world). intros i _. reflexivity.
  - split; reflexivity.
Defined.

(** ** Filtering a selection *)

(** X12: filtering a list of candidates raises nothing of its own (the SDK's
    fillability check is taken as a total predicate); what it keeps is a
    sublist of what it was given, in the same order, without any vAMM node or
    node already marked as filled; the registry can only lose entries (those
    that remain keep their timestamps) and the nodes are not written. *)
Theorem filterNodes_keeps_sublist env l w :
  exists kept w',
    filterNodes env l w = (Ok kept, w') /\
    kept `sublist_of` l /\
    Forall (fun c => isVammNode (nodes w (node c)) = false /\
                     haveFilled (nodes w (node c)) = false) kept /\
    throttledNodes w' ⊆ throttledNodes w /\
    nodes w' = nodes w.
Proof.
  revert w. induction l as [|c rest IH]; intros w.
  - exists [], w. split; [reflexivity|]. split; [apply sublist_nil|].
    split; [constructor|]. split; reflexivity.
  - cbn [filterNodes]. unfold bind at 1.
    rewrite filterFillableNodes_unfold. cbv zeta.
    assert (Hcase : exists keep w1,
              (if isVammNode (nodes w (node c)) then (Ok false, w)
               else if haveFilled (nodes w (node c)) then (Ok false, w)
               else match throttledNodes w !! getNodeToFillSignature w c with
                    | Some lastFillAttempt =>
                        if lastFillAttempt + FILL_ORDER_BACKOFF env
                           >? Date_now env (clockReads w)
                        then (Ok false, with_clockReads (S (clockReads w)) w)
                        else (Ok (vammCheck env w c),
                              with_throttledNodes
                                (delete (getNodeToFillSignature w c)
                                   (throttledNodes w))
                                (with_clockReads (S (clockReads w)) w))
                    | None => (Ok (vammCheck env w c), w)
                    end) = (Ok keep, w1) /\
              (keep = true ->
               isVammNode (nodes w (node c)) = false /\
               haveFilled (nodes w (node c)) = false) /\
              throttledNodes w1 ⊆ throttledNodes w /\
              nodes w1 = nodes w).
    { destruct (isVammNode _); [by exists false, w|].
      destruct (haveFilled _); [by exists false, w|].
      destruct (throttledNodes w !! _); [|by eexists _, _].
      destruct (_ >? _); eexists _, _; (split; [reflexivity|]);
        (split; [done|]); split; try reflexivity.
      apply delete_subseteq. }
    destruct Hcase as (keep & w1 & -> & Hkeep & Hsub & Hn).
    destruct (IH w1) as (kept & w' & Hrun & Hsl & Hall & Hsub' & Hn').
    unfold bind at 1. rewrite Hrun. mstep.
    exists (if keep then c :: kept else kept), w'. split; [reflexivity|].
    assert (Hall' : Forall (fun c0 => isVammNode (nodes w (node c0)) = false /\
                                      haveFilled (nodes w (node c0)) = false)
                      kept) by (by rewrite <- Hn).
    repeat split.
    + destruct keep; [by apply sublist_skip | by apply sublist_cons].
    + destruct keep; [|exact Hall']. constructor; [by apply Hkeep | exact Hall'].
    + by etrans.
    + congruence.
Qed.

(** ** The cycle gate *)

(** X13: tryFill leaves the cycle gate as it found it, on every exit: a gate
    held by another cycle stays held, and a free gate is free again when the
    call returns or raises. *)
Theorem tryFill_restores_gate env w :
  periodicTaskMutex (snd (tryFill env w)) = periodicTaskMutex w.
Proof.
  unfold tryFill, tryAcquire_runExclusive, try_catch, try_finally. mstep.
  destruct (periodicTaskMutex w) eqn:Hgate; mstep; [by cbn [tryFill_catch]|].
  destruct (tryFill_body env (with_periodicTaskMutex true w)) as [[u|e] w1];
    mstep; [reflexivity|].
  destruct e; cbn [tryFill_catch]; mstep; reflexivity.
Qed.

(** ** Signatures *)

Lemma includes_dash_cons ch s :
  includes "-" (String ch s) = false -> ch <> "-"%char /\ includes "-" s = false.
Proof.
  change (includes "-" (String ch s))
    with (if String.prefix "-" (String ch s) then true else includes "-" s).
  cbn [String.prefix]. destruct (ascii_dec "-" ch) as [<-|Hne].
  - destruct s; discriminate.
  - intros H. split; [congruence | exact H].
Qed.

Lemma append_dash_inj a1 a2 r1 r2 :
  dash_free a1 -> dash_free a2 ->
  a1 +:+ "-" +:+ r1 = a2 +:+ "-" +:+ r2 ->
  a1 = a2 /\ r1 = r2.
Proof.
  unfold dash_free. revert a2.
  induction a1 as [|ch1 a1 IH]; intros [|ch2 a2] H1 H2 Heq; simpl in Heq.
  - injection Heq as Heq. auto.
  - injection Heq as <- _. apply includes_dash_cons in H2 as [H2 _]. done.
  - injection Heq as -> _. apply includes_dash_cons in H1 as [H1 _]. done.
  - injection Heq as -> Heq.
    apply includes_dash_cons in H1 as [_ H1].
    apply includes_dash_cons in H2 as [_ H2].
    destruct (IH a2 H1 H2 Heq) as [-> ->]. auto.
Qed.

(** X14: signatures do not collide: two candidates whose accounts render
    without a dash have the same signature only if they have the same account
    and the same order id. *)
Theorem signature_injective w c1 c2 a1 a2 :
  userAccount (nodes w (node c1)) = Some a1 ->
  userAccount (nodes w (node c2)) = Some a2 ->
  dash_free a1 -> dash_free a2 ->
  getNodeToFillSignature w c1 = getNodeToFillSignature w c2 ->
  a1 = a2 /\
  orderId (order (nodes w (node c1))) = orderId (order (nodes w (node c2))).
Proof.
  unfold getNodeToFillSignature. intros -> -> H1 H2 Heq.
  destruct (append_dash_inj _ _ _ _ H1 H2 Heq) as [-> Hp].
  split; [reflexivity|]. by apply (inj pretty).
Qed.

Lemma signature_injective_witness :
  "user1" = "user1" /\
  orderId (order (nodes demo_world 1%nat))
  = orderId (order (nodes demo_world (node (mkNodeToFill 1%nat (Some 2%nat))))).
Proof.
  apply (signature_injective demo_world (mkNodeToFill 1%nat None)
           (mkNodeToFill 1%nat (Some 2%nat)) "user1" "user1");
    reflexivity.
Defined.

(** ** Packed candidates have accounts *)

Lemma resolveFillOrderIx_account env nodeOf c r :
  resolveFillOrderIx env nodeOf c = Ok r ->
  exists a, userAccount (nodeOf (node c)) = Some a.
Proof.
  unfold resolveFillOrderIx, getNodeFillInfo, rbind.
  destruct (match makerNode c with Some _ => _ | None => _ end) as [mi|e];
    [|discriminate].
  destruct (userAccount (nodeOf (node c))) as [a|]; [eauto|discriminate].
Qed.

(** X15: a candidate without an account reference is never packed: every
    candidate of a batch the packer returns has an account, so its signature
    is never the sentinel. *)
Theorem packed_candidates_have_accounts env nodesToFill w pb w' :
  packNodes env (initialBatch env) nodesToFill w = (Ok pb, w') ->
  Forall (fun c => (exists a, userAccount (nodes w (node c)) = Some a) /\
                   getNodeToFillSignature w c <> "~")
         (nodesSent pb).
Proof.
  apply (packNodes_maintains env
           (fun pb => Forall (fun c =>
                        (exists a, userAccount (nodes w (node c)) = Some a) /\
                        getNodeToFillSignature w c <> "~") (nodesSent pb))
           (nodes w)); [|reflexivity|].
  - intros pb0 c info ix Hall Hres _. simpl. apply Forall_app. split; [done|].
    repeat constructor.
    + by eapply resolveFillOrderIx_account.
    + destruct (resolveFillOrderIx_account _ _ _ _ Hres) as [a Ha].
      rewrite signature_sentinel_iff, Ha. discriminate.
  - constructor.
Qed.

Lemma packed_candidates_have_accounts_witness :
  exists pb w',
    packNodes demo_env (initialBatch demo_env) demo_candidates demo_world
      = (Ok pb, w') /\
    Forall (fun c => getNodeToFillSignature demo_world c <> "~") (nodesSent pb).
Proof.
  assert (Hp : packNodes demo_env (initialBatch demo_env) demo_candidates
                 demo_world = (Ok _, _)) by (vm_compute; reflexivity).
  eexists _, _. split; [exact Hp|].
  eapply Forall_impl; [exact (packed_candidates_have_accounts _ _ _ _ _ Hp)|].
  intros c [_ H]. exact H.
Defined.

(** ** Single-candidate path: outcomes *)

Lemma signature_mark_unfilled w c r w1 :
  nodes w1 = mark_unfilled r (nodes w) ->
  getNodeToFillSignature w1 c = getNodeToFillSignature w c.
Proof.
  intros H. unfold getNodeToFillSignature. rewrite H. unfold mark_unfilled.
  by destruct (Nat.eqb (node c) r).
Qed.

(** X16: when the submission of a single-candidate fill throws and the market
    index of the order fits in 53 bits (the last log line of the handler
    converts it with [toNumber]), tryFillNode returns [undefined] having
    marked the candidate's node unfilled, recorded the attempt under the
    candidate's signature at the clock reading taken in the handler, and
    asked the order book to remove the order exactly when the error message
    is "OrderDoesNotExist".  The filter then rejects the candidate for as
    long as the clock reads less than that time plus the backoff. *)
Theorem failed_fill_backs_off env c w a info e :
  dryRun env = false ->
  userAccount (nodes w (node c)) = Some a ->
  Z.abs (marketIndex (market (nodes w (node c)))) < 2 ^ 53 ->
  getNodeFillInfo env (nodes w) c = Ok info ->
  fillOrder env a (order (nodes w (node c))) (makerInfo info)
    (referrerInfo info) = Throw e ->
  (getErrorMessage env e = "OrderDoesNotExist" ->
   dlobMutex_acquired env (AtRemove (order (nodes w (node c))) (Some a))
   = true) ->
  exists w',
    tryFillNode env (Some c) w = (Ok None, w') /\
    throttledNodes w' =
      <[getNodeToFillSignature w c := Date_now env (clockReads w)]>
        (throttledNodes w) /\
    nodes w' = mark_unfilled (node c) (nodes w) /\
    dlobRemoved w' =
      dlobRemoved w ++
      (if String.eqb (getErrorMessage env e) "OrderDoesNotExist"
       then [(order (nodes w (node c)), Some a)] else []) /\
    fillOrderCalls w' = fillOrderCalls w ++ [node c] /\
    (Date_now env (S (clockReads w))
       < Date_now env (clockReads w) + FILL_ORDER_BACKOFF env ->
     fst (filterFillableNodes env c w') = Ok false).
Proof.
  intros Hdry Ha Hmkt Hinfo Hfill Hlock.
  assert (Hmain : exists w',
            tryFillNode env (Some c) w = (Ok None, w') /\
            throttledNodes w' =
              <[getNodeToFillSignature w c := Date_now env (clockReads w)]>
                (throttledNodes w) /\
            nodes w' = mark_unfilled (node c) (nodes w) /\
            dlobRemoved w' =
              dlobRemoved w ++
              (if String.eqb (getErrorMessage env e) "OrderDoesNotExist"
               then [(order (nodes w (node c)), Some a)] else []) /\
            fillOrderCalls w' = fillOrderCalls w ++ [node c] /\
            clockReads w' = S (clockReads w)).
  { unfold tryFillNode. mstep. rewrite Ha. cbn [toString].
    unfold tryFillNode_fill. mstep. rewrite Hinfo, Hdry.
    unfold try_finally, try_catch, tryFillNode_try. mstep. rewrite Hfill.
    unfold tryFillNode_catch, write_haveFilled. mstep.
    rewrite !Nat.eqb_refl. cbn [set_haveFilled userAccount order market].
    rewrite Ha, (toNumber_ok _ Hmkt). cbn [toString].
    match goal with
    | |- context [getNodeToFillSignature ?w1 c] =>
        lazymatch w1 with
        | w => fail
        | _ => rewrite (signature_mark_unfilled w c (node c) w1 eq_refl)
        end
    end.
    destruct (String.eqb (getErrorMessage env e) "OrderDoesNotExist") eqn:Em.
    - apply String.eqb_eq in Em. rewrite (Hlock Em). mstep.
      eexists. split; [reflexivity|]. world_simpl. repeat split.
    - mstep. eexists. split; [reflexivity|]. world_simpl.
      rewrite app_nil_r. repeat split. }
  destruct Hmain as (w' & Hrun & Hthr & Hn & Hrem & Hcalls & Hclock).
  exists w'. split; [exact Hrun|]. split; [exact Hthr|]. split; [exact Hn|].
  split; [exact Hrem|]. split; [exact Hcalls|].
  intros Hlt. rewrite filterFillableNodes_unfold. cbv zeta.
  rewrite (signature_mark_unfilled w c (node c) w' Hn), Hthr, lookup_insert_eq.
  rewrite Hclock.
  destruct (isVammNode _); [reflexivity|]. destruct (haveFilled _); [reflexivity|].
  destruct (Z.gtb_spec (Date_now env (clockReads w) + FILL_ORDER_BACKOFF env)
              (Date_now env (S (clockReads w)))); [reflexivity|lia].
Qed.

Lemma failed_fill_backs_off_witness :
  exists w',
    tryFillNode demo_env (Some (mkNodeToFill 1%nat None)) demo_world
      = (Ok None, w') /\
    throttledNodes w' = {[ "user1-100" := 0 ]} /\
    dlobRemoved w' = [(mkOrder 100, Some "user1")] /\
    fst (filterFillableNodes demo_env (mkNodeToFill 1%nat None) w') = Ok false.
Proof.
  destruct (failed_fill_backs_off demo_env (mkNodeToFill 1%nat None) demo_world
              "user1"
              (mkFillInfo None (mkChUser "user1" "user1/authority") None)
              (SendTransactionError "fill failed" (Some []))
              eq_refl eq_refl eq_refl eq_refl eq_refl (fun _ => eq_refl))
    as (w' & Hrun & Hthr & _ & Hrem & _ & Hfilter).
  exists w'. split; [exact Hrun|]. split; [|split].
  - rewrite Hthr. vm_compute. reflexivity.
  - rewrite Hrem. reflexivity.
  - apply Hfilter. vm_compute. reflexivity.
Defined.

(** X17: when the submission of a single-candidate fill succeeds, tryFillNode
    returns the signature; it has called the SDK once, and has touched neither
    the registry, nor the nodes, nor the order book. *)
Theorem successful_fill_changes_nothing env c w a info txSig :
  dryRun env = false ->
  userAccount (nodes w (node c)) = Some a ->
  getNodeFillInfo env (nodes w) c = Ok info ->
  fillOrder env a (order (nodes w (node c))) (makerInfo info)
    (referrerInfo info) = Ok txSig ->
  exists w',
    tryFillNode env (Some c) w = (Ok (Some txSig), w') /\
    throttledNodes w' = throttledNodes w /\
    nodes w' = nodes w /\
    dlobRemoved w' = dlobRemoved w /\
    clockReads w' = clockReads w /\
    fillOrderCalls w' = fillOrderCalls w ++ [node c] /\
    metrics w' =
      option_map (fun l => l ++ [RecordRpcRequests "fillOrder";
                                 RecordFilledOrder None;
                                 RecordRpcDuration "fillOrder"]) (metrics w).
Proof.
  intros Hdry Ha Hinfo Hfill.
  unfold tryFillNode. mstep. rewrite Ha. cbn [toString].
  unfold tryFillNode_fill. mstep. rewrite Hinfo, Hdry.
  unfold try_finally, try_catch, tryFillNode_try. mstep. rewrite Hfill. mstep.
  eexists. split; [reflexivity|]. world_simpl. repeat split.
  destruct (metrics w) as [l|]; simpl; [|reflexivity].
  by rewrite <- !app_assoc.
Qed.

Lemma successful_fill_changes_nothing_witness :
  exists w',
    tryFillNode demo_env_fill_ok (Some (mkNodeToFill 1%nat None)) demo_world
      = (Ok (Some "fillsig"), w') /\
    throttledNodes w' = ∅ /\ fillOrderCalls w' = [1%nat].
Proof.
  destruct (successful_fill_changes_nothing demo_env_fill_ok
              (mkNodeToFill 1%nat None) demo_world "user1"
              (mkFillInfo None (mkChUser "user1" "user1/authority") None)
              "fillsig" eq_refl eq_refl eq_refl eq_refl)
    as (w' & Hrun & Hthr & _ & _ & _ & Hcalls & _).
  exists w'. split; [exact Hrun|]. split; [exact Hthr | exact Hcalls].
Defined.

(** ** Event trigger *)

(** X18: [trigger] dispatches on the event tag.  An event of any other type
    does nothing.  A new-user event only consults the two user maps: the
    world is left as it was.  An order event hands the record to both maps
    first: if either throws, the error is raised and no cycle is started;
    otherwise the call is a cycle, and when a cycle is already in flight it is
    dropped with only the busy gate reported. *)
Theorem trigger_dispatch env upd1 upd2 record w :
  (eventType record <> "OrderRecord" ->
   eventType record <> "NewUserRecord" ->
   trigger env upd1 upd2 record w = (Ok tt, w)) /\
  (eventType record = "NewUserRecord" ->
   snd (trigger env upd1 upd2 record w) = w) /\
  (eventType record = "OrderRecord" ->
   (forall e, upd1 record = Throw e ->
      trigger env upd1 upd2 record w = (Throw e, w)) /\
   (forall u e, upd1 record = Ok u -> upd2 record = Throw e ->
      trigger env upd1 upd2 record w = (Throw e, w)) /\
   (forall u u', upd1 record = Ok u -> upd2 record = Ok u' ->
      trigger env upd1 upd2 record w = tryFill env w /\
      (periodicTaskMutex w = true ->
       trigger env upd1 upd2 record w =
         (Ok tt,
          with_metrics
            (option_map (fun l => l ++ [RecordMutexBusy]) (metrics w)) w)))).
Proof.
  unfold trigger. split; [|split].
  - intros H1 H2. apply String.eqb_neq in H1, H2. by rewrite H1, H2.
  - intros H. rewrite H. cbn [String.eqb Ascii.eqb Bool.eqb]. mstep.
    destruct (userAuthority record) as [a|]; cbn [toString]; [|reflexivity].
    destruct (userMap_mustGet env a); [|reflexivity].
    destruct (userStatsMap_mustGet env a); reflexivity.
  - intros H. rewrite H, String.eqb_refl. split; [|split].
    + intros e He. mstep. by rewrite He.
    + intros u e Hu He. mstep. by rewrite Hu, He.
    + intros u u' Hu Hu'. unfold seq at 1 2, bind at 1 2, lift.
      rewrite Hu, Hu'. split; [reflexivity|].
      intros Hbusy. unfold tryFill, try_catch, tryAcquire_runExclusive. mstep.
      by rewrite Hbusy.
Qed.

Lemma trigger_dispatch_witness :
  trigger demo_env (fun _ => Ok tt) (fun _ => Ok tt)
    (mkEvent "LiquidationRecord" None) demo_world = (Ok tt, demo_world) /\
  trigger demo_env (fun _ => Ok tt) (fun _ => Ok tt)
    (mkEvent "OrderRecord" None) demo_busy_world
  = (Ok tt, with_metrics (Some [RecordMutexBusy]) demo_busy_world) /\
  trigger demo_env (fun _ => Throw (OtherError "unknown user")) (fun _ => Ok tt)
    (mkEvent "OrderRecord" None) demo_world
  = (Throw (OtherError "unknown user"), demo_world).
Proof.
  split; [|split].
  - apply (proj1 (trigger_dispatch demo_env (fun _ => Ok tt) (fun _ => Ok tt)
                    (mkEvent "LiquidationRecord" None) demo_world));
      discriminate.
  - exact (proj2 (proj2 (proj2 (proj2 (proj2
             (trigger_dispatch demo_env (fun _ => Ok tt) (fun _ => Ok tt)
                (mkEvent "OrderRecord" None) demo_busy_world)) eq_refl))
             tt tt eq_refl eq_refl) eq_refl).
  - exact (proj1 (proj2 (proj2
             (trigger_dispatch demo_env
                (fun _ => Throw (OtherError "unknown user")) (fun _ => Ok tt)
                (mkEvent "OrderRecord" None) demo_world)) eq_refl)
             (OtherError "unknown user") eq_refl).
Defined.

(** ** One submission per cycle *)

Lemma sentTxs_frame (X : list Transaction) w w' :
  nodes w' = nodes w -> throttledNodes w' = throttledNodes w ->
  dlobRemoved w' = dlobRemoved w -> sentTxs w' = sentTxs w ->
  sentTxs w = X -> sentTxs w' = X.
Proof. congruence. Qed.

Lemma sent_at_most_one_frame w0 w w' :
  nodes w' = nodes w -> throttledNodes w' = throttledNodes w ->
  dlobRemoved w' = dlobRemoved w -> sentTxs w' = sentTxs w ->
  sent_at_most_one_since w0 w -> sent_at_most_one_since w0 w'.
Proof. unfold sent_at_most_one_since. intros _ _ _ ->. done. Qed.

(** A batched submission hands at most one transaction to the sender. *)
Lemma tryBulkFillNodes_sends_at_most_once env nodesToFill w :
  sent_at_most_one_since w (snd (tryBulkFillNodes env nodesToFill w)).
Proof.
  pose proof (preserves_packNodes (fun w' => sentTxs w' = sentTxs w)
                (sentTxs_frame (sentTxs w)) env nodesToFill (initialBatch env)
                w eq_refl) as Hp.
  destruct (packNodes env (initialBatch env) nodesToFill w) as [[pb|e] w1] eqn:E.
  - destruct (nodesSent pb) as [|c sent] eqn:Es.
    + left. unfold tryBulkFillNodes. unfold bind at 1. rewrite E, Es.
      cbn [length Nat.eqb]. mstep. exact Hp.
    + right. exists (tx pb). eapply tryBulkFillNodes_sends; [exact E|].
      by rewrite Es.
  - left. unfold tryBulkFillNodes. unfold bind at 1. by rewrite E.
Qed.

(** Sequencing a step that sends nothing with one that sends at most once. *)
Lemma bind_sends_at_most_once {A B} w (c : M A) (k : A -> M B) w0 :
  sentTxs w0 = sentTxs w ->
  preserves (fun w' => sentTxs w' = sentTxs w) c ->
  (forall a w1, sentTxs w1 = sentTxs w ->
     sent_at_most_one_since w (snd (k a w1))) ->
  sent_at_most_one_since w (snd (bind c k w0)).
Proof.
  intros H0 Hc Hk. unfold bind. specialize (Hc w0 H0).
  destruct (c w0) as [[a|e] w1]; simpl in *; [by apply Hk | by left].
Qed.

Lemma tryFill_body_sends_at_most_once env w w0 :
  sentTxs w0 = sentTxs w ->
  sent_at_most_one_since w (snd (tryFill_body env w0)).
Proof.
  pose proof (sentTxs_frame (sentTxs w)) as Hf0.
  pose proof (sent_at_most_one_frame w) as Hf1.
  intros H0. unfold tryFill_body. unfold seq at 1.
  apply bind_sends_at_most_once; [exact H0| |].
  { apply preserves_dlobMutex. apply preserves_seq.
    - apply preserves_modify. intros w1. by apply Hf0.
    - apply preserves_seq;
        [exact (preserves_metric _ Hf0 _) | apply preserves_lift]. }
  intros _ w1 H1. apply bind_sends_at_most_once; [exact H1| |].
  { exact (preserves_collectFillableNodes _ env _ _). }
  intros fillable w2 H2. apply bind_sends_at_most_once; [exact H2| |].
  { apply (preserves_filterNodes _ Hf0). done. }
  intros filtered w3 H3. unfold seq at 1.
  apply bind_sends_at_most_once; [exact H3| |].
  { exact (preserves_metric _ Hf0 _). }
  intros _ w4 H4.
  assert (Hbulk : sent_at_most_one_since w
                    (snd (promiseTimeout env
                            (tryBulkFillNodes env filtered) w4))).
  { pose proof (tryBulkFillNodes_sends_at_most_once env filtered w4) as Hb.
    unfold sent_at_most_one_since in *. rewrite H4 in Hb.
    unfold promiseTimeout. destruct (promiseTimeout_expired env);
      [exact Hb|].
    unfold bind. destruct (tryBulkFillNodes env filtered w4) as [[r|e] w5];
      exact Hb. }
  unfold bind.
  destruct (promiseTimeout env (tryBulkFillNodes env filtered) w4)
    as [[[r|]|e] w5]; simpl in *; [exact Hbulk| |exact Hbulk].
  revert Hbulk. by apply Hf1.
Qed.

(** X19: one call of the cycle entry point hands at most one transaction to
    the sender, whatever the collaborators answer and whether the call returns
    or raises. *)
Theorem cycle_sends_at_most_one_transaction env w :
  sent_at_most_one_since w (snd (tryFill env w)).
Proof.
  pose proof (sent_at_most_one_frame w) as Hf1.
  assert (Hgated : sent_at_most_one_since w
                     (snd (tryAcquire_runExclusive (tryFill_body env) w))).
  { unfold tryAcquire_runExclusive, try_finally. mstep.
    destruct (periodicTaskMutex w); [by left|]. mstep.
    pose proof (tryFill_body_sends_at_most_once env w
                  (with_periodicTaskMutex true w) eq_refl) as Hb.
    destruct (tryFill_body env (with_periodicTaskMutex true w)) as [r w1].
    simpl in *. revert Hb. by apply Hf1. }
  unfold tryFill, try_catch. unfold bind at 1, seq at 1 2, bind at 1 2.
  destruct (tryAcquire_runExclusive (tryFill_body env) w) as [[u|e] w1];
    simpl in Hgated.
  - cbn [ret when]. mstep. revert Hgated. by apply Hf1.
  - destruct e; cbn [tryFill_catch]; mstep; cbn [when]; try exact Hgated;
      revert Hgated; by apply Hf1.
Qed.

(** ** Batched submission: what is reported *)

(** The packing loop touches the log and nothing else. *)
Lemma packNodes_only_logs env nodesToFill :
  forall pb0 w r w',
    packNodes env pb0 nodesToFill w = (r, w') ->
    exists l, w' = with_logged (logged w ++ l) w.
Proof.
  induction nodesToFill as [|c rest IH]; intros pb0 w r w'.
  - intros [= <- <-]. exists []. rewrite app_nil_r. by destruct w.
  - rewrite packNodes_cons, packNode_unfold.
    destruct (resolveFillOrderIx env (nodes w) c) as [[info ix]|e].
    + destruct (_ >=? _).
      * intros [= <- <-]. exists []. rewrite app_nil_r. by destruct w.
      * intros Hrun. apply IH in Hrun as [l ->]. eexists.
        world_simpl. by rewrite <- app_assoc.
    + intros [= <- <-]. exists []. rewrite app_nil_r. by destruct w.
Qed.

(** X20: a batch whose outcome record cannot be fetched is still reported as
    filled.  When the sender accepts the transaction and the ten fetches all
    answer [null], tryBulkFillNodes returns the signature and reports the
    number of packed candidates to [recordFilledOrder]; the registry and the
    order book are not touched. *)
Theorem unknown_outcome_is_reported_as_filled
    env nodesToFill w pb w1 txSig :
  packNodes env (initialBatch env) nodesToFill w = (Ok pb, w1) ->
  nodesSent pb <> [] ->
  txSender_send env (tx pb) = Ok txSig ->
  (forall i, (i < 10)%nat -> getTransaction env txSig i = Ok None) ->
  exists w',
    tryBulkFillNodes env nodesToFill w = (Ok (Some txSig), w') /\
    metrics w' =
      option_map
        (fun l => l ++ [RecordRpcDuration "send";
                        RecordRpcDuration "processLogs";
                        RecordFilledOrder
                          (Some (Z.of_nat (length (nodesSent pb))))])
        (metrics w) /\
    sentTxs w' = sentTxs w ++ [tx pb] /\
    throttledNodes w' = throttledNodes w /\
    dlobRemoved w' = dlobRemoved w.
Proof.
  intros Hpack Hne Hsend Hnull.
  destruct (packNodes_only_logs _ _ _ _ _ _ Hpack) as [l Hw1].
  unfold tryBulkFillNodes. unfold bind at 1. rewrite Hpack.
  destruct (nodesSent pb) as [|c sent] eqn:Es; [done|].
  cbn [length Nat.eqb]. unfold try_catch. mstep. rewrite Hsend. mstep.
  unfold processBulkFillTxLogs. unfold bind at 1.
  rewrite waitForTransaction_all_null by exact Hnull. mstep.
  eexists. split; [reflexivity|]. world_simpl. subst w1. world_simpl.
  repeat split.
  destruct (metrics w) as [m|]; simpl; [|reflexivity].
  by rewrite <- !app_assoc.
Qed.

Lemma unknown_outcome_is_reported_as_filled_witness :
  exists w',
    tryBulkFillNodes demo_env_not_found demo_candidates demo_world
      = (Ok (Some "sig"), w') /\
    metrics w' = Some [RecordRpcDuration "send"; RecordRpcDuration "processLogs";
                       RecordFilledOrder (Some 2)] /\
    throttledNodes w' = ∅.
Proof.
  assert (Hp : packNodes demo_env_not_found (initialBatch demo_env_not_found)
                 demo_candidates demo_world = (Ok _, _))
    by (vm_compute; reflexivity).
  destruct (unknown_outcome_is_reported_as_filled demo_env_not_found
              demo_candidates demo_world _ _ "sig" Hp)
    as (w' & Hrun & Hmet & _ & Hthr & _).
  - discriminate.
  - reflexivity.
  - intros i _. reflexivity.
  - exists w'. split; [exact Hrun|]. split; [exact Hmet | exact Hthr].
Defined.

(** ** Batched submission: what can escape *)

(** X21: the only exceptions that leave tryBulkFillNodes are those raised
    while packing (resolving a candidate) and the TypeError its own handler
    raises when the caught value carries no logs.  Whatever the sender or the
    reconciliation threw is replaced by that TypeError or absorbed. *)
Theorem batched_path_raises_only_handler_error env nodesToFill w e w' :
  tryBulkFillNodes env nodesToFill w = (Throw e, w') ->
  packNodes env (initialBatch env) nodesToFill w = (Throw e, w') \/
  e = TypeError "simError.logs is not iterable".
Proof.
  unfold tryBulkFillNodes. unfold bind at 1.
  destruct (packNodes env (initialBatch env) nodesToFill w) as [[pb|e0] w1];
    [|intros [= <- <-]; by left].
  unfold seq at 1, bind at 1, logger at 1, modify at 1.
  destruct (Nat.eqb _ _); [mstep; discriminate|].
  unfold seq at 1, bind at 1, logger at 1, modify at 1. unfold try_catch.
  match goal with
  | |- context [let (_, _) := ?c ?w0 in _] => destruct (c w0) as [[r|e0] w2]
  end; [discriminate|].
  unfold tryBulkFillNodes_catch. mstep.
  destruct (error_logs e0) as [logs|].
  - match goal with
    | |- context [logEach Error logs ?w0] =>
        pose proof (logEach_ok Error logs w0) as Hl;
        destruct (logEach Error logs w0) as [r w3]
    end.
    simpl in Hl. subst r. discriminate.
  - intros [= <- <-]. by right.
Qed.

Lemma batched_path_raises_only_handler_error_witness :
  exists w',
    tryBulkFillNodes demo_env_unexpected (take 1 demo_candidates) demo_world
      = (Throw (TypeError "simError.logs is not iterable"), w').
Proof.
  assert (Hrun : exists e w',
            tryBulkFillNodes demo_env_unexpected (take 1 demo_candidates)
              demo_world = (Throw e, w'))
    by (eexists _, _; vm_compute; reflexivity).
  destruct Hrun as (e & w' & Hrun).
  destruct (batched_path_raises_only_handler_error _ _ _ _ _ Hrun)
    as [Hpack | ->].
  - exfalso. revert Hpack. vm_compute. discriminate.
  - exists w'. exact Hrun.
Defined.

(** ** Selection across markets *)

(** X22: when every market answers, the selection is the concatenation of the
    markets' candidates in the order of the markets, and collecting them
    leaves the world untouched. *)
Theorem collectFillableNodes_concat env (found : MarketAccount -> list NodeToFill)
    markets acc w :
  Forall (fun m => marketResult env m = Ok (found m)) markets ->
  collectFillableNodes env acc markets w =
    (Ok (acc ++ concat (map found markets)), w).
Proof.
  intros Hall. revert acc.
  induction Hall as [|m rest Hm _ IH]; intros acc; simpl.
  - by rewrite app_nil_r.
  - unfold bind. rewrite getFillableNodesForMarket_unfold, Hm, IH.
    by rewrite <- app_assoc.
Qed.

Lemma collectFillableNodes_concat_witness :
  collectFillableNodes demo_env_unexpected [] [mkMarket 0; mkMarket 0]
    demo_world
  = (Ok (take 1 demo_candidates ++ take 1 demo_candidates), demo_world).
Proof.
  apply (collectFillableNodes_concat demo_env_unexpected
           (fun _ => take 1 demo_candidates) [mkMarket 0; mkMarket 0] []
           demo_world).
  repeat constructor.
Defined.
